(** * Dispatch store of the roadside-assistance server

    A shallow embedding of [server.js] (the JSON-file backed store behind the
    HTTP routes) and of [clean-database.js] (the maintenance script that
    rewrites the [requests] array), together with the properties of the
    assignment-consistency and request-lifecycle rules.

    Conventions of the embedding:
    - a JavaScript number that holds an id is a [Z];
    - the result of [parseInt] is a [jsnum]: [Some n] for an integer and [None]
      for [NaN].  [JSON.stringify] writes [NaN] as [null], and neither [NaN]
      nor [null] is [===] to any result of [parseInt]; [None] stands for both;
    - [new Date().toISOString()] is the clock reading, an integer number of
      milliseconds; ISO strings of equal length compare like the readings.  A
      handler runs to completion within one reading of the clock;
    - a handler is a computation over the content of [database.json]: it reads
      the file into a local [db], mutates that local object and, on the paths
      where the source does so, writes it back. *)

From stdpp Require Import base option list strings gmap sorting.

Local Open Scope Z_scope.

(** ** Data model *)

Definition timestamp := Z.
Definition jsnum := option Z.

(** [x === y] on values that are numbers, [NaN] or [null]. *)
Definition strict_eq (x y : jsnum) : bool :=
  match x, y with
  | Some a, Some b => bool_decide (a = b)
  | _, _ => false
  end.

Infix "===" := strict_eq (at level 65, no associativity).
Global Arguments strict_eq : simpl never.

Record request := Request {
  r_id : Z;
  r_userInfo : string;
  r_imageUrl : option string;
  r_status : string;
  r_createdAt : timestamp;
  r_updatedAt : timestamp
}.

Record contact := Contact {
  c_id : Z;
  c_name : string;
  c_phone : string;
  c_email : string;
  c_role : string;
  c_createdAt : timestamp
}.

Record user := User {
  u_id : Z;
  u_username : string;
  u_email : string;
  u_role : string;
  u_status : string;
  u_createdAt : timestamp
}.

Record admin := Admin {
  ad_id : Z;
  ad_name : string;
  ad_username : string;
  ad_email : string;
  ad_phone : string;
  ad_level : string;
  ad_status : string;
  ad_createdAt : timestamp
}.

Record assignment := Assignment {
  a_id : Z;
  a_requestId : jsnum;
  a_contactId : jsnum;
  a_userId : jsnum;
  a_status : string;
  a_createdAt : timestamp
}.

Record database := Database {
  requests : list request;
  contacts : list contact;
  users : list user;
  admins : list admin;
  assignments : list assignment
}.

(** [item.id], for the items of every collection. *)
Class Item (A : Type) := item_id : A → Z.
Global Instance request_item : Item request := r_id.
Global Instance contact_item : Item contact := c_id.
Global Instance user_item : Item user := u_id.
Global Instance admin_item : Item admin := ad_id.
Global Instance assignment_item : Item assignment := a_id.

(** Assignment of one property of the local [db] object. *)
Definition set_requests (l : list request) (db : database) : database :=
  Database l (contacts db) (users db) (admins db) (assignments db).
Definition set_contacts (l : list contact) (db : database) : database :=
  Database (requests db) l (users db) (admins db) (assignments db).
Definition set_users (l : list user) (db : database) : database :=
  Database (requests db) (contacts db) l (admins db) (assignments db).
Definition set_admins (l : list admin) (db : database) : database :=
  Database (requests db) (contacts db) (users db) l (assignments db).
Definition set_assignments (l : list assignment) (db : database) : database :=
  Database (requests db) (contacts db) (users db) (admins db) l.

(** ** Array primitives *)

(** [arr.findIndex(p)]: [None] is the source's [-1]. *)
Definition findIndex {A} (p : A → bool) (l : list A) : option nat :=
  fst <$> list_find (λ x, Is_true (p x)) l.

(** [arr.find(p)]. *)
Definition find {A} (p : A → bool) (l : list A) : option A :=
  snd <$> list_find (λ x, Is_true (p x)) l.

(** [arr.push(x)]. *)
Definition push {A} (x : A) (l : list A) : list A := l ++ [x].

(** [arr.splice(i, 1)]. *)
Definition splice1 {A} (i : nat) (l : list A) : list A := delete i l.

(** [Math.max(...xs)] on the non-empty array [x :: xs]. *)
Definition Math_max (x : Z) (xs : list Z) : Z := foldr Z.max x xs.

(** ** The handler monad: the clock is read, the file is read and written *)

Definition M (A : Type) : Type := timestamp → database → A * database.

Global Instance M_ret : MRet M := λ A a _ file, (a, file).
Global Instance M_bind : MBind M := λ A B k m now file,
  let '(a, file') := m now file in k a now file'.

Definition readDatabase : M database := λ _ file, (file, file).
Definition writeDatabase (data : database) : M bool := λ _ _, (true, data).
Definition newDate : M timestamp := λ now file, (now, file).

(** The content of [database.json] after the handler, and its response. *)
Definition persisted {A} (m : M A) (now : timestamp) (file : database) : database :=
  (m now file).2.
Definition response {A} (m : M A) (now : timestamp) (file : database) : A :=
  (m now file).1.

Definition next_of (ids : list Z) : Z :=
  match ids with
  | [] => 1
  | x :: xs => Math_max x xs + 1
  end.

Definition getNextId {A} `{Item A} (collection : database → list A) : M Z :=
  db ← readDatabase;
  mret (next_of (item_id <$> collection db)).

(** [initializeDatabase], for a file that does not exist yet. *)
Definition initialData (now : timestamp) : database :=
  {| requests := [];
     contacts :=
       [ Contact 1 "Ahmed Mechanic" "0612345678" "ahmed@roadside.com" "mechanic" now;
         Contact 2 "Fatima Towing" "0623456789" "fatima@roadside.com" "towing" now;
         Contact 3 "Karim Emergency" "0634567890" "karim@roadside.com" "emergency" now ];
     users :=
       [ User 1 "admin1" "admin1@roadside.com" "admin" "active" now;
         User 2 "superadmin" "super@roadside.com" "super_admin" "active" now;
         User 3 "operator1" "op1@roadside.com" "operator" "active" now ];
     admins :=
       [ Admin 1 "John Admin" "admin1" "admin1@roadside.com" "0612345678" "admin" "active" now;
         Admin 2 "Sarah Super" "superadmin" "super@roadside.com" "0623456789" "super_admin" "active" now ];
     assignments := [] |}.

(** ** Handlers *)

Inductive status_code := OK | NotFound.

(** Requests *)

Definition createRequest (userInfo : string) (imageUrl : option string) : M request :=
  db ← readDatabase;
  id ← getNextId requests;
  createdAt ← newDate;
  updatedAt ← newDate;
  let newRequest := Request id userInfo imageUrl "Submitted" createdAt updatedAt in
  let db := set_requests (push newRequest (requests db)) db in
  _ ← writeDatabase db;
  mret newRequest.

Definition updateRequestStatus (id : jsnum) (status : string) : M status_code :=
  db ← readDatabase;
  match findIndex (λ r, Some (r_id r) === id) (requests db) with
  | None => mret NotFound
  | Some requestIndex =>
      updatedAt ← newDate;
      let db := set_requests
        (alter (λ r, Request (r_id r) (r_userInfo r) (r_imageUrl r) status
                       (r_createdAt r) updatedAt)
           requestIndex (requests db)) db in
      _ ← writeDatabase db;
      mret OK
  end.

Definition deleteRequest (id : jsnum) : M status_code :=
  db ← readDatabase;
  let db := set_assignments
    (filter (λ a, Is_true (negb (a_requestId a === id))) (assignments db)) db in
  match findIndex (λ r, Some (r_id r) === id) (requests db) with
  | None => mret NotFound
  | Some requestIndex =>
      let db := set_requests (splice1 requestIndex (requests db)) db in
      _ ← writeDatabase db;
      mret OK
  end.

(** Contacts *)

Definition createContact (name phone email role : string) : M contact :=
  db ← readDatabase;
  id ← getNextId contacts;
  createdAt ← newDate;
  let newContact := Contact id name phone email role createdAt in
  let db := set_contacts (push newContact (contacts db)) db in
  _ ← writeDatabase db;
  mret newContact.

Definition updateContact (id : jsnum) (name phone email role : string) : M status_code :=
  db ← readDatabase;
  match findIndex (λ c, Some (c_id c) === id) (contacts db) with
  | None => mret NotFound
  | Some contactIndex =>
      let db := set_contacts
        (alter (λ c, Contact (c_id c) name phone email role (c_createdAt c))
           contactIndex (contacts db)) db in
      _ ← writeDatabase db;
      mret OK
  end.

Definition deleteContact (id : jsnum) : M status_code :=
  db ← readDatabase;
  let db := set_assignments
    (filter (λ a, Is_true (negb (a_contactId a === id))) (assignments db)) db in
  match findIndex (λ c, Some (c_id c) === id) (contacts db) with
  | None => mret NotFound
  | Some contactIndex =>
      let db := set_contacts (splice1 contactIndex (contacts db)) db in
      _ ← writeDatabase db;
      mret OK
  end.

(** Users *)

Definition createUser (username email role status : string) : M user :=
  db ← readDatabase;
  id ← getNextId users;
  createdAt ← newDate;
  let newUser := User id username email role status createdAt in
  let db := set_users (push newUser (users db)) db in
  _ ← writeDatabase db;
  mret newUser.

Definition updateUser (id : jsnum) (username email role status : string) : M status_code :=
  db ← readDatabase;
  match findIndex (λ u, Some (u_id u) === id) (users db) with
  | None => mret NotFound
  | Some userIndex =>
      let db := set_users
        (alter (λ u, User (u_id u) username email role status (u_createdAt u))
           userIndex (users db)) db in
      _ ← writeDatabase db;
      mret OK
  end.

Definition deleteUser (id : jsnum) : M status_code :=
  db ← readDatabase;
  let db := set_assignments
    (filter (λ a, Is_true (negb (a_userId a === id))) (assignments db)) db in
  match findIndex (λ u, Some (u_id u) === id) (users db) with
  | None => mret NotFound
  | Some userIndex =>
      let db := set_users (splice1 userIndex (users db)) db in
      _ ← writeDatabase db;
      mret OK
  end.

(** Admins *)

Definition createAdmin (name username email phone level status : string) : M admin :=
  db ← readDatabase;
  id ← getNextId admins;
  createdAt ← newDate;
  let newAdmin := Admin id name username email phone level status createdAt in
  let db := set_admins (push newAdmin (admins db)) db in
  _ ← writeDatabase db;
  mret newAdmin.

Definition updateAdmin (id : jsnum) (name username email phone level status : string)
  : M status_code :=
  db ← readDatabase;
  match findIndex (λ a, Some (ad_id a) === id) (admins db) with
  | None => mret NotFound
  | Some adminIndex =>
      let db := set_admins
        (alter (λ a, Admin (ad_id a) name username email phone level status (ad_createdAt a))
           adminIndex (admins db)) db in
      _ ← writeDatabase db;
      mret OK
  end.

Definition deleteAdmin (id : jsnum) : M status_code :=
  db ← readDatabase;
  match findIndex (λ a, Some (ad_id a) === id) (admins db) with
  | None => mret NotFound
  | Some adminIndex =>
      let db := set_admins (splice1 adminIndex (admins db)) db in
      _ ← writeDatabase db;
      mret OK
  end.

(** Assignments *)

Definition upsertAssignment (requestId contactId userId : jsnum) (status : string)
  : M status_code :=
  db ← readDatabase;
  let existingAssignmentIndex :=
    findIndex (λ a, a_requestId a === requestId) (assignments db) in
  db ← match existingAssignmentIndex with
       | Some i =>
           mret (set_assignments
             (alter (λ a, Assignment (a_id a) (a_requestId a) contactId userId status
                            (a_createdAt a))
                i (assignments db)) db)
       | None =>
           id ← getNextId assignments;
           createdAt ← newDate;
           let newAssignment := Assignment id requestId contactId userId status createdAt in
           mret (set_assignments (push newAssignment (assignments db)) db)
       end;
  db ← match findIndex (λ r, Some (r_id r) === requestId) (requests db) with
       | Some requestIndex =>
           updatedAt ← newDate;
           mret (set_requests
             (alter (λ r, Request (r_id r) (r_userInfo r) (r_imageUrl r) "In Progress"
                            (r_createdAt r) updatedAt)
                requestIndex (requests db)) db)
       | None => mret db
       end;
  _ ← writeDatabase db;
  mret OK.

(** ** Sequences of operations *)

(** The operations are the routes that call [writeDatabase].  The GET routes
    sort and join a local copy and never write; they are left out. *)

Inductive op :=
| CreateRequest (userInfo : string) (imageUrl : option string)
| UpdateRequestStatus (id : jsnum) (status : string)
| DeleteRequest (id : jsnum)
| CreateContact (name phone email role : string)
| UpdateContact (id : jsnum) (name phone email role : string)
| DeleteContact (id : jsnum)
| CreateUser (username email role status : string)
| UpdateUser (id : jsnum) (username email role status : string)
| DeleteUser (id : jsnum)
| CreateAdmin (name username email phone level status : string)
| UpdateAdmin (id : jsnum) (name username email phone level status : string)
| DeleteAdmin (id : jsnum)
| UpsertAssignment (requestId contactId userId : jsnum) (status : string).

(** The handler of an operation, with the response reduced to its status. *)
Definition handle (o : op) : M status_code :=
  match o with
  | CreateRequest ui img => _ ← createRequest ui img; mret OK
  | UpdateRequestStatus id s => updateRequestStatus id s
  | DeleteRequest id => deleteRequest id
  | CreateContact n p e r => _ ← createContact n p e r; mret OK
  | UpdateContact id n p e r => updateContact id n p e r
  | DeleteContact id => deleteContact id
  | CreateUser n e r s => _ ← createUser n e r s; mret OK
  | UpdateUser id n e r s => updateUser id n e r s
  | DeleteUser id => deleteUser id
  | CreateAdmin n u e p l s => _ ← createAdmin n u e p l s; mret OK
  | UpdateAdmin id n u e p l s => updateAdmin id n u e p l s
  | DeleteAdmin id => deleteAdmin id
  | UpsertAssignment r c u s => upsertAssignment r c u s
  end.

(** The files that the server can hold: the seed, then one handler after the
    other, each at some reading of the clock. *)
Inductive reachable : database → Prop :=
| reachable_init now : reachable (initialData now)
| reachable_step db now o : reachable db → reachable (persisted (handle o) now db).

(** The number of assignments [a] with [a.requestId === requestId]. *)
Definition assignments_for (requestId : jsnum) (db : database) : nat :=
  length (filter (λ a, Is_true (a_requestId a === requestId)) (assignments db)).

(** A small session: a contact and a request are created, the request is
    assigned and then reassigned. *)
Definition session : list (timestamp * op) :=
  [ (10, CreateContact "Ahmed" "0612345678" "ahmed@x.com" "mechanic");
    (20, CreateRequest "Jane, Toyota, Rabat" None);
    (30, UpsertAssignment (Some 1) (Some 4) (Some 1) "assigned");
    (40, UpsertAssignment (Some 1) (Some 2) (Some 3) "completed") ].

Definition replay (l : list (timestamp * op)) (db : database) : database :=
  foldl (λ db '(now, o), persisted (handle o) now db) db l.

Definition session_db : database := replay session (initialData 0).

(** ** The cleaning script, [clean-database.js] *)

Definition PLACEHOLDER : string := "/uploads/placeholder.png".

(** String concatenation renders [null] as the text null. *)
Definition to_text (v : option string) : string := default "null" v.

(** [req.userInfo + '|' + req.imageUrl] *)
Definition key (req : request) : string :=
  r_userInfo req +:+ "|" +:+ to_text (r_imageUrl req).

(** The [filter] callback reads and extends the set [seen]. *)
Fixpoint filter_seen (seen : gset string) (reqs : list request) : list request :=
  match reqs with
  | [] => []
  | req :: rest =>
      if decide (key req ∈ seen) then filter_seen seen rest
      else req :: filter_seen ({[key req]} ∪ seen) rest
  end.

(** The [map] callback reads and increments the counter [nextId]. *)
Fixpoint map_nextId (nextId : Z) (reqs : list request) : list request :=
  match reqs with
  | [] => []
  | req :: rest =>
      Request nextId (r_userInfo req)
        (match r_imageUrl req with None => Some PLACEHOLDER | Some url => Some url end)
        (r_status req) (r_createdAt req) (r_updatedAt req)
      :: map_nextId (nextId + 1) rest
  end.

Definition cleanRequests (requests : list request) : list request :=
  map_nextId 1 (filter_seen ∅ requests).

(** Two requests of the same requester without a photo, the first one already
    cleaned by an earlier run of the script. *)
Definition cleaned_then_new : list request :=
  [ Request 1 "Jane, Toyota, Rabat" (Some PLACEHOLDER) "Submitted" 20 20;
    Request 2 "Jane, Toyota, Rabat" None "Submitted" 50 50 ].

(** The session, followed by an assignment for a request that does not exist. *)
Definition dangling_db : database :=
  persisted (upsertAssignment (Some 7) (Some 1) (Some 1) "assigned") 50 session_db.

(** ** The read routes *)

(** [arr.sort(cmp)].  The sort is stable: an item is placed behind the items
    that [cmp] does not order after it, in the order of the array. *)
Fixpoint sort_insert {A} (cmp : A → A → Z) (x : A) (sorted : list A) : list A :=
  match sorted with
  | [] => [x]
  | y :: rest =>
      if decide (cmp y x ≤ 0) then y :: sort_insert cmp x rest else x :: sorted
  end.

Definition sort {A} (cmp : A → A → Z) (l : list A) : list A :=
  foldl (λ sorted x, sort_insert cmp x sorted) [] l.

(** A row of [GET /api/requests]: [{...req, contactName, contactRole, userName}]. *)
Record requestView := RequestView {
  rv_req : request;
  rv_contactName : option string;
  rv_contactRole : option string;
  rv_userName : option string
}.

(** The callback of [db.requests.map]: the request, joined with the contact
    and the user of its assignment. *)
Definition request_row (db : database) (req : request) : requestView :=
  let assignment := find (λ a, a_requestId a === Some (r_id req)) (assignments db) in
  let contact :=
    assignment ≫= λ a, find (λ c, Some (c_id c) === a_contactId a) (contacts db) in
  let user :=
    assignment ≫= λ a, find (λ u, Some (u_id u) === a_userId a) (users db) in
  RequestView req (c_name <$> contact) (c_role <$> contact) (u_username <$> user).

Definition listRequests : M (list requestView) :=
  db ← readDatabase;
  let requests := request_row db <$> requests db in
  mret (sort (λ a b, r_createdAt (rv_req b) - r_createdAt (rv_req a)) requests).

(** A row of [GET /api/assignments]. *)
Record assignmentView := AssignmentView {
  av_assignment : assignment;
  av_userInfo : option string;
  av_imageUrl : option string;
  av_requestStatus : option string;
  av_contactName : option string;
  av_contactRole : option string;
  av_userName : option string
}.

(** The callback of [db.assignments.map]: the assignment, joined with its
    request, contact and user. *)
Definition assignment_row (db : database) (assignment : assignment) : assignmentView :=
  let request := find (λ r, Some (r_id r) === a_requestId assignment) (requests db) in
  let contact := find (λ c, Some (c_id c) === a_contactId assignment) (contacts db) in
  let user := find (λ u, Some (u_id u) === a_userId assignment) (users db) in
  AssignmentView assignment
    (r_userInfo <$> request) (request ≫= r_imageUrl) (r_status <$> request)
    (c_name <$> contact) (c_role <$> contact) (u_username <$> user).

Definition listAssignments : M (list assignmentView) :=
  db ← readDatabase;
  let assignments := assignment_row db <$> assignments db in
  mret (sort (λ a b, a_createdAt (av_assignment b) - a_createdAt (av_assignment a))
          assignments).

(** ** The cleaning script on the file *)

(** [main]: the file is parsed, its [requests] are cleaned, and it is written. *)
Definition main (db : database) : database :=
  set_requests (cleanRequests (requests db)) db.

(** ** Classes of operations *)

(** The routes under [/api/requests], [/api/contacts], [/api/users] and
    [/api/admins] that write. *)
Definition request_route (o : op) : bool :=
  match o with
  | CreateRequest _ _ | UpdateRequestStatus _ _ | DeleteRequest _ => true
  | _ => false
  end.
Definition contact_route (o : op) : bool :=
  match o with
  | CreateContact _ _ _ _ | UpdateContact _ _ _ _ _ | DeleteContact _ => true
  | _ => false
  end.
Definition user_route (o : op) : bool :=
  match o with
  | CreateUser _ _ _ _ | UpdateUser _ _ _ _ _ | DeleteUser _ => true
  | _ => false
  end.
Definition admin_route (o : op) : bool :=
  match o with
  | CreateAdmin _ _ _ _ _ _ | UpdateAdmin _ _ _ _ _ _ _ | DeleteAdmin _ => true
  | _ => false
  end.
Definition is_upsert (o : op) : bool :=
  match o with UpsertAssignment _ _ _ _ => true | _ => false end.
Definition is_delete (o : op) : bool :=
  match o with
  | DeleteRequest _ | DeleteContact _ | DeleteUser _ | DeleteAdmin _ => true
  | _ => false
  end.

(** Every id of the file is a positive number. *)
Definition positive_ids {A} `{Item A} (l : list A) : Prop :=
  Forall (λ id, 0 < id) (item_id <$> l).

Definition all_positive_ids (db : database) : Prop :=
  positive_ids (requests db) ∧ positive_ids (contacts db) ∧ positive_ids (users db) ∧
  positive_ids (admins db) ∧ positive_ids (assignments db).

(** The number of assignments that the file stores with this [requestId],
    null included. *)
Definition stored_for (requestId : jsnum) (db : database) : nat :=
  length (filter (λ a, a_requestId a = requestId) (assignments db)).

(** The same request, with a request id that [parseInt] cannot read, sent twice. *)
Definition two_null : database :=
  replay [ (50, UpsertAssignment None (Some 1) (Some 1) "assigned");
           (60, UpsertAssignment None (Some 1) (Some 1) "assigned") ]
    (initialData 0).

(** ** Properties of a file *)

(** The ids of a collection are pairwise distinct. *)
Definition distinct_ids {A} `{Item A} (l : list A) : Prop := NoDup (item_id <$> l).

Definition all_distinct_ids (db : database) : Prop :=
  distinct_ids (requests db) ∧ distinct_ids (contacts db) ∧ distinct_ids (users db) ∧
  distinct_ids (admins db) ∧ distinct_ids (assignments db).

(** [id] is one more than the greatest of [ids], or 1 when there is none. *)
Definition allocated (id : Z) (ids : list Z) : Prop :=
  (ids = [] ∧ id = 1) ∨ (∃ m, m ∈ ids ∧ (∀ x, x ∈ ids → x ≤ m) ∧ id = m + 1).

(** No two assignments of the file have the same [requestId]. *)
Definition single_assignment (db : database) : Prop :=
  ∀ requestId, (assignments_for requestId db ≤ 1)%nat.

(** * Properties *)

(** ** Arrays *)

Section arrays.
Context {A : Type}.
Implicit Types (p : A → bool) (l : list A).

Lemma findIndex_cons p x l :
  findIndex p (x :: l) = if p x then Some 0%nat else S <$> findIndex p l.
Proof.
  unfold findIndex. simpl. destruct (p x); simpl; [done|].
  by destruct (list_find _ l) as [[]|].
Qed.

Lemma findIndex_Some p l i :
  findIndex p l = Some i ↔
  ∃ x, l !! i = Some x ∧ p x = true ∧ ∀ j y, l !! j = Some y → (j < i)%nat → p y = false.
Proof.
  unfold findIndex. split.
  - destruct (list_find _ l) as [[k x]|] eqn:E; simpl; [|done].
    intros [= ->]. apply list_find_Some in E as (Hx & Hp & Hlt).
    exists x. split_and!; [done|by apply Is_true_true|].
    intros j y Hy Hj. specialize (Hlt j y Hy Hj).
    by destruct (p y); [exfalso; apply Hlt|].
  - intros (x & Hx & Hp & Hlt).
    assert (list_find (λ x, Is_true (p x)) l = Some (i, x)) as ->; [|done].
    apply list_find_Some. split_and!; [done|by apply Is_true_true|].
    intros j y Hy Hj. rewrite (Hlt j y Hy Hj). by intros [].
Qed.

Lemma findIndex_None p l :
  findIndex p l = None ↔ ∀ x, x ∈ l → p x = false.
Proof.
  unfold findIndex. rewrite fmap_None, list_find_None, Forall_forall.
  split; intros H x Hx; specialize (H x Hx).
  - by destruct (p x); [exfalso; apply H|].
  - rewrite H. by intros [].
Qed.

Lemma findIndex_lt p l i : findIndex p l = Some i → (i < length l)%nat.
Proof.
  intros (x & Hx & _)%findIndex_Some. by eapply lookup_lt_Some.
Qed.

Lemma find_findIndex p l x :
  find p l = Some x ↔ ∃ i, findIndex p l = Some i ∧ l !! i = Some x.
Proof.
  unfold find, findIndex.
  destruct (list_find _ l) as [[k y]|] eqn:E; simpl.
  - apply list_find_Some in E as (Hy & _). split.
    + intros [= ->]. by exists k.
    + intros (i & [= <-] & Hi). congruence.
  - split; [done|]. by intros (i & ? & _).
Qed.

(** An update that keeps what [f] reads keeps the array of [f]-values. *)
Lemma fmap_alter_keep {B} (f : A → B) (g : A → A) i l :
  (∀ x, f (g x) = f x) → f <$> alter g i l = f <$> l.
Proof.
  intros Hg. rewrite (list_fmap_alter f g id) by (apply Forall_forall; intros x _; apply Hg).
  by apply list_alter_id.
Qed.

Lemma filter_alter_keep {B} (f : A → B) (q : B → bool) (g : A → A) i l :
  (∀ x, f (g x) = f x) →
  length (filter (λ x, Is_true (q (f x))) (alter g i l)) =
  length (filter (λ x, Is_true (q (f x))) l).
Proof.
  intros Hg. revert i. induction l as [|x l IH]; intros [|i]; simpl; try done.
  - rewrite !filter_cons, Hg. by destruct (decide _).
  - rewrite !filter_cons. destruct (decide _); simpl; [f_equal|]; apply IH.
Qed.

Lemma findIndex_alter_keep {B} (f : A → B) (q : B → bool) (g : A → A) i l :
  (∀ x, f (g x) = f x) →
  findIndex (λ x, q (f x)) (alter g i l) = findIndex (λ x, q (f x)) l.
Proof.
  intros Hg. revert i.
  induction l as [|x l IH]; intros [|i]; try done.
  - change (alter g 0%nat (x :: l)) with (g x :: l).
    by rewrite !findIndex_cons, Hg.
  - change (alter g (S i) (x :: l)) with (x :: alter g i l).
    by rewrite !findIndex_cons, IH.
Qed.
End arrays.

(** ** Running a handler *)

Ltac run :=
  unfold persisted, response, handle,
    createRequest, updateRequestStatus, deleteRequest,
    createContact, updateContact, deleteContact,
    createUser, updateUser, deleteUser,
    createAdmin, updateAdmin, deleteAdmin, upsertAssignment,
    getNextId, readDatabase, writeDatabase, newDate,
    mbind, M_bind, mret, M_ret;
  simpl.

(** ** Id allocation *)

Lemma Math_max_ge x xs y : y ∈ x :: xs → y ≤ Math_max x xs.
Proof.
  unfold Math_max. induction xs as [|z xs IH]; simpl.
  - intros ->%list_elem_of_singleton. lia.
  - rewrite !elem_of_cons. intros [->|[->|Hy]].
    + assert (x ≤ foldr Z.max x xs) by (apply IH; left). lia.
    + lia.
    + assert (y ≤ foldr Z.max x xs) by (apply IH; by right). lia.
Qed.

Lemma Math_max_elem x xs : Math_max x xs ∈ x :: xs.
Proof.
  unfold Math_max. induction xs as [|z xs IH]; simpl; [left|].
  destruct (Z.max_spec z (foldr Z.max x xs)) as [[_ ->]|[_ ->]].
  - apply elem_of_cons in IH as [->|IH]; [left|by do 2 right].
  - right; left.
Qed.

Lemma next_of_allocated ids : allocated (next_of ids) ids.
Proof.
  destruct ids as [|x xs]; [by left|right].
  exists (Math_max x xs). split_and!; [apply Math_max_elem| |done].
  intros y Hy. by apply Math_max_ge.
Qed.

Lemma allocated_fresh id ids : allocated id ids → id ∉ ids.
Proof.
  intros [[-> _]|(m & _ & Hm & ->)]; [apply not_elem_of_nil|].
  intros Hin%Hm. lia.
Qed.

Section collections.
Context {A : Type} `{Item A}.
Implicit Types (l : list A).

Lemma distinct_ids_push x l :
  item_id x = next_of (item_id <$> l) → distinct_ids l → distinct_ids (push x l).
Proof.
  unfold distinct_ids, push. intros Hx Hl. rewrite fmap_app. simpl.
  apply NoDup_app. split_and!; [done| |apply NoDup_singleton].
  intros y Hy ->%list_elem_of_singleton.
  apply (allocated_fresh (item_id x) (item_id <$> l)); [|done].
  rewrite Hx. apply next_of_allocated.
Qed.

Lemma distinct_ids_alter (g : A → A) i l :
  (∀ x, item_id (g x) = item_id x) → distinct_ids l → distinct_ids (alter g i l).
Proof. unfold distinct_ids. intros Hg. by rewrite fmap_alter_keep. Qed.

Lemma distinct_ids_sublist l k : k `sublist_of` l → distinct_ids l → distinct_ids k.
Proof.
  unfold distinct_ids. intros Hs Hl.
  eapply sublist_NoDup; [exact Hl|]. by apply fmap_sublist.
Qed.

Lemma distinct_ids_splice1 i l : distinct_ids l → distinct_ids (splice1 i l).
Proof. apply distinct_ids_sublist, sublist_delete. Qed.

Lemma distinct_ids_filter (P : A → Prop) `{∀ x, Decision (P x)} l :
  distinct_ids l → distinct_ids (filter P l).
Proof. apply distinct_ids_sublist. by apply sublist_filter. Qed.
End collections.

Lemma initialData_distinct now : all_distinct_ids (initialData now).
Proof.
  unfold all_distinct_ids, distinct_ids. simpl.
  split_and!; by apply (bool_decide_unpack _).
Qed.

Lemma handle_distinct o now db :
  all_distinct_ids db → all_distinct_ids (persisted (handle o) now db).
Proof.
  intros (Hr & Hc & Hu & Had & Ha). destruct o; run;
    repeat match goal with
    | |- context [findIndex ?p ?l] => destruct (findIndex p l); simpl
    end;
    unfold all_distinct_ids; simpl; split_and!;
    auto using @distinct_ids_push, @distinct_ids_alter,
      @distinct_ids_splice1, @distinct_ids_filter.
Qed.

Lemma reachable_replay l db : reachable db → reachable (replay l db).
Proof.
  revert db. induction l as [|[now o] l IH]; intros db Hdb; [done|].
  apply IH. by constructor.
Qed.

Lemma reachable_distinct db : reachable db → all_distinct_ids db.
Proof.
  induction 1; [apply initialData_distinct|by apply handle_distinct].
Qed.

(** ** One assignment per request *)

Lemma strict_eq_true x y : x === y = true ↔ ∃ n, x = Some n ∧ y = Some n.
Proof.
  unfold strict_eq.
  destruct x as [a|], y as [b|]; try (split; [done|by intros (? & ? & ?)]).
  rewrite bool_decide_eq_true. split; [intros ->; by exists b|].
  by intros (n & [= ->] & [= ->]).
Qed.

Lemma strict_eq_trans_l x y z : x === y = true → y === z = x === z.
Proof. intros (n & -> & ->)%strict_eq_true. done. Qed.

Section counting.
Context {A : Type}.
Implicit Types (p q : A → bool) (l : list A).

Lemma filter_findIndex_None p l :
  findIndex p l = None → filter (λ x, Is_true (p x)) l = [].
Proof.
  rewrite findIndex_None. induction l as [|x l IH]; intros Hl; [done|].
  rewrite filter_cons, (Hl x) by left. simpl.
  apply IH. intros y Hy. apply Hl. by right.
Qed.

Lemma findIndex_is_Some p l x : x ∈ l → p x = true → is_Some (findIndex p l).
Proof.
  intros Hx Hp. destruct (findIndex p l) eqn:E; [done|].
  rewrite findIndex_None in E. rewrite (E x Hx) in Hp. done.
Qed.

Lemma length_filter_filter p q l :
  (length (filter (λ x, Is_true (p x)) (filter (λ x, Is_true (q x)) l)) ≤
   length (filter (λ x, Is_true (p x)) l))%nat.
Proof.
  induction l as [|x l IH]; [done|].
  rewrite (filter_cons (λ x, Is_true (q x))), (filter_cons (λ x, Is_true (p x)) x l).
  destruct (decide (q x)), (decide (p x)) as [Hp|Hp]; simpl;
    rewrite ?filter_cons; repeat case_decide; simpl; try done; lia.
Qed.

(** A filter that keeps at most one element identifies it. *)
Lemma filter_le_1_unique p l x y :
  (length (filter (λ x, Is_true (p x)) l) ≤ 1)%nat →
  x ∈ l → p x = true → y ∈ l → p y = true → x = y.
Proof.
  intros Hlen Hx Hpx Hy Hpy.
  assert (x ∈ filter (λ x, Is_true (p x)) l) as Hx'
    by (apply list_elem_of_filter; split; [by apply Is_true_true|done]).
  assert (y ∈ filter (λ x, Is_true (p x)) l) as Hy'
    by (apply list_elem_of_filter; split; [by apply Is_true_true|done]).
  destruct (filter _ l) as [|z [|z' k]]; simpl in *; [ | |lia].
  - by apply not_elem_of_nil in Hx'.
  - apply list_elem_of_singleton in Hx', Hy'. congruence.
Qed.
End counting.

Lemma assignments_for_push a requestId db :
  assignments_for requestId (set_assignments (push a (assignments db)) db) =
  (assignments_for requestId db + if a_requestId a === requestId then 1 else 0)%nat.
Proof.
  unfold assignments_for, push. simpl.
  rewrite filter_app, length_app, filter_cons, filter_nil.
  by destruct (a_requestId a === requestId).
Qed.

Lemma assignments_for_None requestId db :
  findIndex (λ a, a_requestId a === requestId) (assignments db) = None →
  assignments_for requestId db = 0%nat.
Proof. unfold assignments_for. by intros ->%filter_findIndex_None. Qed.

Lemma assignments_for_Some requestId db :
  (0 < assignments_for requestId db)%nat →
  is_Some (findIndex (λ a, a_requestId a === requestId) (assignments db)).
Proof.
  intros Hpos. destruct (findIndex _ _) eqn:E; [done|].
  apply assignments_for_None in E. lia.
Qed.

Lemma upsert_single requestId contactId userId status now db :
  single_assignment db →
  single_assignment (persisted (upsertAssignment requestId contactId userId status) now db).
Proof.
  intros Hdb v. run.
  destruct (findIndex (λ a, a_requestId a === requestId) (assignments db)) as [i|] eqn:E;
    simpl.
  - destruct (findIndex _ (requests db)); simpl;
      unfold assignments_for; simpl;
      rewrite (filter_alter_keep a_requestId (λ x, x === v)) by done; apply Hdb.
  - assert (assignments_for v (set_assignments
        (push (Assignment (next_of (a_id <$> assignments db)) requestId contactId userId
                 status now) (assignments db)) db) ≤ 1)%nat as Hpush.
    { rewrite assignments_for_push. simpl.
      destruct (requestId === v) eqn:Ev; [|specialize (Hdb v); lia].
      apply assignments_for_None in E.
      apply strict_eq_true in Ev as (n & -> & ->). lia. }
    by destruct (findIndex _ (requests db)).
Qed.

Lemma handle_single o now db :
  single_assignment db → single_assignment (persisted (handle o) now db).
Proof.
  intros Hdb. destruct o; try (by apply upsert_single); intros v; run;
    repeat match goal with
    | |- context [findIndex ?p ?l] => destruct (findIndex p l); simpl
    end;
    try apply Hdb;
    unfold assignments_for; simpl;
    (etrans; [apply length_filter_filter|apply Hdb]).
Qed.

Lemma reachable_single db : reachable db → single_assignment db.
Proof.
  induction 1; [|by apply handle_single].
  intros v. unfold assignments_for. simpl. lia.
Qed.

Lemma assignments_for_0 requestId db :
  assignments_for requestId db = 0%nat ↔
  findIndex (λ a, a_requestId a === requestId) (assignments db) = None.
Proof.
  split; [|apply assignments_for_None].
  intros Hz. destruct (findIndex _ _) as [i|] eqn:E; [exfalso|done].
  apply findIndex_Some in E as (a & Ha & Hp & _).
  apply list_elem_of_lookup_2 in Ha.
  assert (a ∈ filter (λ a, Is_true (a_requestId a === requestId)) (assignments db)) as Hin
    by (apply list_elem_of_filter; split; [by apply Is_true_true|done]).
  unfold assignments_for in Hz. apply nil_length_inv in Hz. rewrite Hz in Hin.
  by apply not_elem_of_nil in Hin.
Qed.

(** A request id that [parseInt] cannot read is [===] to nothing, not even to
    itself: such a call finds no assignment and appends one, which the file
    stores with a null [requestId]. *)
Remark upsert_unparsed_requestId db contactId userId status now :
  assignments (persisted (upsertAssignment None contactId userId status) now db) =
  assignments db ++
    [Assignment (next_of (a_id <$> assignments db)) None contactId userId status now].
Proof.
  assert (findIndex (λ a, a_requestId a === None) (assignments db) = None) as E.
  { apply findIndex_None. intros a _. by destruct (a_requestId a). }
  run. rewrite E. simpl.
  assert (findIndex (λ r, Some (r_id r) === None) (requests db) = None) as ->; [|done].
  by apply findIndex_None.
Qed.

(** C5. In every file that the server can hold, the ids of each of the five
    collections are pairwise distinct, and every creation appends one item
    whose id is the greatest id of its collection plus one, or 1 when the
    collection is empty. *)
Theorem ids_pairwise_distinct db :
  reachable db →
  all_distinct_ids db ∧
  (∀ now userInfo imageUrl,
     let r := response (createRequest userInfo imageUrl) now db in
     requests (persisted (createRequest userInfo imageUrl) now db) = requests db ++ [r] ∧
     allocated (r_id r) (r_id <$> requests db)) ∧
  (∀ now name phone email role,
     let c := response (createContact name phone email role) now db in
     contacts (persisted (createContact name phone email role) now db) = contacts db ++ [c] ∧
     allocated (c_id c) (c_id <$> contacts db)) ∧
  (∀ now username email role status,
     let u := response (createUser username email role status) now db in
     users (persisted (createUser username email role status) now db) = users db ++ [u] ∧
     allocated (u_id u) (u_id <$> users db)) ∧
  (∀ now name username email phone level status,
     let a := response (createAdmin name username email phone level status) now db in
     admins (persisted (createAdmin name username email phone level status) now db)
       = admins db ++ [a] ∧
     allocated (ad_id a) (ad_id <$> admins db)) ∧
  (∀ now requestId contactId userId status,
     assignments_for requestId db = 0%nat →
     ∃ a, assignments (persisted (upsertAssignment requestId contactId userId status) now db)
            = assignments db ++ [a] ∧
          allocated (a_id a) (a_id <$> assignments db)).
Proof.
  intros Hdb. split; [by apply reachable_distinct|].
  split_and!; intros; try (run; split; [done|apply next_of_allocated]).
  match goal with H : assignments_for _ _ = _ |- _ => apply assignments_for_0 in H as E end.
  run. rewrite E. simpl.
  eexists. split; [by destruct (findIndex _ (requests db))|].
  apply next_of_allocated.
Qed.

Lemma ids_pairwise_distinct_witness :
  reachable session_db ∧ all_distinct_ids session_db.
Proof.
  assert (reachable session_db) as Hs by apply reachable_replay, reachable_init.
  split; [exact Hs|]. apply (ids_pairwise_distinct session_db Hs).
Defined.

(** ** The side effect of an assignment on its request *)

Lemma find_alter_keep {A B} (f : A → B) (q : B → bool) (g : A → A) i (l : list A) x :
  (∀ x, f (g x) = f x) →
  findIndex (λ x, q (f x)) l = Some i → l !! i = Some x →
  find (λ x, q (f x)) (alter g i l) = Some (g x).
Proof.
  intros Hg Hi Hx. apply find_findIndex. exists i.
  split; [by rewrite findIndex_alter_keep|].
  by rewrite list_lookup_alter_eq, Hx.
Qed.

Lemma find_None_findIndex {A} (p : A → bool) (l : list A) :
  find p l = None ↔ findIndex p l = None.
Proof. unfold find, findIndex. by rewrite !fmap_None. Qed.

(** C2 (amended). When a request with the id exists, [upsertAssignment] leaves
    it with the status In Progress and with [updatedAt] equal to the reading
    of the clock during the call, whatever assignment status the caller gave;
    its other fields are kept. *)
Theorem upsert_forces_in_progress db requestId contactId userId status now q :
  find (λ r, Some (r_id r) === requestId) (requests db) = Some q →
  find (λ r, Some (r_id r) === requestId)
    (requests (persisted (upsertAssignment requestId contactId userId status) now db)) =
  Some (Request (r_id q) (r_userInfo q) (r_imageUrl q) "In Progress" (r_createdAt q) now).
Proof.
  intros (j & Hj & Hq)%find_findIndex. run.
  destruct (findIndex _ (assignments db)); simpl; rewrite Hj; simpl;
    by rewrite (find_alter_keep r_id (λ x, Some x === requestId) _ j _ q).
Qed.

Lemma upsert_forces_in_progress_witness :
  find (λ r, Some (r_id r) === Some 1) (requests session_db) =
    Some (Request 1 "Jane, Toyota, Rabat" None "In Progress" 20 40) ∧
  find (λ r, Some (r_id r) === Some 1)
    (requests (persisted (upsertAssignment (Some 1) (Some 2) (Some 3) "completed") 50
                 session_db)) =
    Some (Request 1 "Jane, Toyota, Rabat" None "In Progress" 20 50).
Proof.
  split; [reflexivity|].
  apply (upsert_forces_in_progress session_db (Some 1) (Some 2) (Some 3) "completed" 50
           (Request 1 "Jane, Toyota, Rabat" None "In Progress" 20 40)).
  reflexivity.
Defined.

(** C2 as stated fails: a request created and assigned within one reading of
    the clock keeps its [updatedAt]; it is not strictly greater than before. *)
Lemma upsert_updatedAt_not_greater :
  let db := persisted (createRequest "Jane, Toyota, Rabat" None) 20 (initialData 0) in
  let db' := persisted (upsertAssignment (Some 1) (Some 1) (Some 1) "assigned") 20 db in
  ∃ q q',
    find (λ r, Some (r_id r) === Some 1) (requests db) = Some q ∧
    find (λ r, Some (r_id r) === Some 1) (requests db') = Some q' ∧
    r_status q' = "In Progress" ∧
    ¬ (r_updatedAt q < r_updatedAt q').
Proof.
  do 2 eexists. split_and!; [reflexivity|reflexivity|reflexivity|].
  simpl. lia.
Qed.

(** ** References of an assignment *)

(** C3 (amended). When there is no assignment for the request id,
    [upsertAssignment] appends an assignment that carries the request, contact
    and user ids as they were given, the next id and the reading of the clock;
    no collection is searched for the contact or the user, and the search of
    the requests does not decide whether the assignment is created. *)
Theorem upsert_creates_unchecked db requestId contactId userId status now :
  assignments_for requestId db = 0%nat →
  assignments (persisted (upsertAssignment requestId contactId userId status) now db) =
  assignments db ++
    [Assignment (next_of (a_id <$> assignments db)) requestId contactId userId status now].
Proof.
  intros E%assignments_for_0. run. rewrite E. simpl.
  by destruct (findIndex _ (requests db)).
Qed.

Lemma upsert_creates_unchecked_witness :
  assignments_for (Some 7) session_db = 0%nat ∧
  assignments (persisted (upsertAssignment (Some 7) (Some 8) None "assigned") 50 session_db) =
  assignments session_db ++ [Assignment 2 (Some 7) (Some 8) None "assigned" 50].
Proof.
  split; [reflexivity|].
  apply (upsert_creates_unchecked session_db (Some 7) (Some 8) None "assigned" 50).
  reflexivity.
Defined.

(** C3 as stated fails: on the seed, an assignment is created for ids that no
    request, contact or user has. *)
Lemma upsert_dangling_references :
  let db := initialData 0 in
  let db' := persisted (upsertAssignment (Some 999) (Some 999) (Some 999) "assigned") 5 db in
  assignments db' = [Assignment 1 (Some 999) (Some 999) (Some 999) "assigned" 5] ∧
  find (λ r, Some (r_id r) === Some 999) (requests db) = None ∧
  find (λ c, Some (c_id c) === Some 999) (contacts db) = None ∧
  find (λ u, Some (u_id u) === Some 999) (users db) = None.
Proof. by split_and!. Qed.

(** ** Cascading deletions *)

Lemma elem_of_filter_negb {A} (p : A → bool) (l : list A) x :
  x ∈ filter (λ x, Is_true (negb (p x))) l ↔ x ∈ l ∧ p x = false.
Proof.
  rewrite list_elem_of_filter. destruct (p x); simpl.
  - split; [by intros [[] _]|by intros [_ [=]]].
  - split; [by intros [_ ?]|by intros [? _]].
Qed.

(** C4. The deletion of a request, contact or user answers OK exactly when an
    entity of the collection has the id, and it then leaves exactly the
    assignments that did not reference the deleted id: every assignment whose
    [requestId], [contactId] or [userId] (respectively) is the id is removed,
    and no remaining assignment references it. *)
Theorem cascade_delete db id now :
  ((response (deleteRequest id) now db = OK ↔
    ∃ q, q ∈ requests db ∧ Some (r_id q) === id = true) ∧
   (response (deleteRequest id) now db = OK →
    ∀ a, a ∈ assignments (persisted (deleteRequest id) now db) ↔
         a ∈ assignments db ∧ a_requestId a === id = false)) ∧
  ((response (deleteContact id) now db = OK ↔
    ∃ q, q ∈ contacts db ∧ Some (c_id q) === id = true) ∧
   (response (deleteContact id) now db = OK →
    ∀ a, a ∈ assignments (persisted (deleteContact id) now db) ↔
         a ∈ assignments db ∧ a_contactId a === id = false)) ∧
  ((response (deleteUser id) now db = OK ↔
    ∃ q, q ∈ users db ∧ Some (u_id q) === id = true) ∧
   (response (deleteUser id) now db = OK →
    ∀ a, a ∈ assignments (persisted (deleteUser id) now db) ↔
         a ∈ assignments db ∧ a_userId a === id = false)).
Proof.
  split_and!; run;
    match goal with
    | |- context [findIndex ?p ?l] => destruct (findIndex p l) as [i|] eqn:Ei; simpl
    end; try done.
  - split; [intros _|done].
    apply findIndex_Some in Ei as (q & Hq & Hp & _).
    exists q. split; [by eapply list_elem_of_lookup_2|done].
  - split; [done|]. intros (q & Hq & Hp).
    rewrite findIndex_None in Ei. rewrite (Ei q Hq) in Hp. done.
  - intros _ a. apply (elem_of_filter_negb (λ a, a_requestId a === id)).
  - split; [intros _|done].
    apply findIndex_Some in Ei as (q & Hq & Hp & _).
    exists q. split; [by eapply list_elem_of_lookup_2|done].
  - split; [done|]. intros (q & Hq & Hp).
    rewrite findIndex_None in Ei. rewrite (Ei q Hq) in Hp. done.
  - intros _ a. apply (elem_of_filter_negb (λ a, a_contactId a === id)).
  - split; [intros _|done].
    apply findIndex_Some in Ei as (q & Hq & Hp & _).
    exists q. split; [by eapply list_elem_of_lookup_2|done].
  - split; [done|]. intros (q & Hq & Hp).
    rewrite findIndex_None in Ei. rewrite (Ei q Hq) in Hp. done.
  - intros _ a. apply (elem_of_filter_negb (λ a, a_userId a === id)).
Qed.

Lemma cascade_delete_witness :
  assignments session_db = [Assignment 1 (Some 1) (Some 2) (Some 3) "completed" 30] ∧
  (Request 1 "Jane, Toyota, Rabat" None "In Progress" 20 40 ∈ requests session_db ∧
   response (deleteRequest (Some 1)) 50 session_db = OK ∧
   Assignment 1 (Some 1) (Some 2) (Some 3) "completed" 30
     ∉ assignments (persisted (deleteRequest (Some 1)) 50 session_db)) ∧
  (Contact 2 "Fatima Towing" "0623456789" "fatima@roadside.com" "towing" 0
     ∈ contacts session_db ∧
   response (deleteContact (Some 2)) 50 session_db = OK ∧
   Assignment 1 (Some 1) (Some 2) (Some 3) "completed" 30
     ∉ assignments (persisted (deleteContact (Some 2)) 50 session_db)) ∧
  (User 3 "operator1" "op1@roadside.com" "operator" "active" 0 ∈ users session_db ∧
   response (deleteUser (Some 3)) 50 session_db = OK ∧
   Assignment 1 (Some 1) (Some 2) (Some 3) "completed" 30
     ∉ assignments (persisted (deleteUser (Some 3)) 50 session_db)).
Proof.
  split; [reflexivity|].
  destruct (cascade_delete session_db (Some 1) 50) as ([Hok1 Hasg1] & _ & _).
  destruct (cascade_delete session_db (Some 2) 50) as (_ & [Hok2 Hasg2] & _).
  destruct (cascade_delete session_db (Some 3) 50) as (_ & _ & [Hok3 Hasg3]).
  assert (Request 1 "Jane, Toyota, Rabat" None "In Progress" 20 40 ∈ requests session_db)
    as Hr by left.
  assert (Contact 2 "Fatima Towing" "0623456789" "fatima@roadside.com" "towing" 0
            ∈ contacts session_db) as Hc by (right; left).
  assert (User 3 "operator1" "op1@roadside.com" "operator" "active" 0 ∈ users session_db)
    as Hu by (do 2 right; left).
  split; [|split].
  - split; [exact Hr|]. split.
    + apply Hok1. eexists. split; [exact Hr|reflexivity].
    + intros Hin.
      apply (Hasg1 (proj2 Hok1 (ex_intro _ _ (conj Hr eq_refl)))) in Hin as [_ Hin].
      discriminate Hin.
  - split; [exact Hc|]. split.
    + apply Hok2. eexists. split; [exact Hc|reflexivity].
    + intros Hin.
      apply (Hasg2 (proj2 Hok2 (ex_intro _ _ (conj Hc eq_refl)))) in Hin as [_ Hin].
      discriminate Hin.
  - split; [exact Hu|]. split.
    + apply Hok3. eexists. split; [exact Hu|reflexivity].
    + intros Hin.
      apply (Hasg3 (proj2 Hok3 (ex_intro _ _ (conj Hu eq_refl)))) in Hin as [_ Hin].
      discriminate Hin.
Defined.

(** ** Usernames and emails *)

Lemma NoDup_snoc_iff {A} (l : list A) x : NoDup (l ++ [x]) ↔ NoDup l ∧ x ∉ l.
Proof.
  rewrite NoDup_app. split.
  - intros (Hl & Hx & _). split; [done|]. intros Hin. apply (Hx x Hin). left.
  - intros [Hl Hx]. split_and!; [done| |apply NoDup_singleton].
    by intros y Hy ->%list_elem_of_singleton.
Qed.

Lemma fmap_alter_const {A B} (f : A → B) (g : A → A) y i (l : list A) :
  (∀ x, f (g x) = y) → f <$> alter g i l = <[i:=y]> (f <$> l).
Proof.
  intros Hg. rewrite list_insert_alter.
  apply list_fmap_alter, Forall_forall. by intros x _.
Qed.

(** C6 (amended). The usernames and the emails of the seed users are pairwise
    distinct.  [createUser] appends the username and the email it is given
    without looking at the existing ones, so that they stay pairwise distinct
    exactly when the given one is not yet in use; [updateUser] overwrites
    those of the user it finds, again without looking at the others. *)
Theorem usernames_stored_unchecked db now username email role status :
  (NoDup (u_username <$> users (initialData now)) ∧
   NoDup (u_email <$> users (initialData now))) ∧
  (let db' := persisted (createUser username email role status) now db in
   u_username <$> users db' = (u_username <$> users db) ++ [username] ∧
   u_email <$> users db' = (u_email <$> users db) ++ [email] ∧
   (NoDup (u_username <$> users db') ↔
      NoDup (u_username <$> users db) ∧ username ∉ u_username <$> users db) ∧
   (NoDup (u_email <$> users db') ↔
      NoDup (u_email <$> users db) ∧ email ∉ u_email <$> users db)) ∧
  (∀ id i, findIndex (λ u, Some (u_id u) === id) (users db) = Some i →
   let db' := persisted (updateUser id username email role status) now db in
   u_username <$> users db' = <[i:=username]> (u_username <$> users db) ∧
   u_email <$> users db' = <[i:=email]> (u_email <$> users db)).
Proof.
  split_and!.
  - by apply (bool_decide_unpack _).
  - by apply (bool_decide_unpack _).
  - run. unfold push. rewrite !fmap_app. simpl.
    split_and!; [done|done|apply NoDup_snoc_iff|apply NoDup_snoc_iff].
  - intros id i Hi. run. rewrite Hi. simpl.
    split; by apply fmap_alter_const.
Qed.

Lemma usernames_stored_unchecked_witness :
  findIndex (λ u, Some (u_id u) === Some 3) (users session_db) = Some 2%nat ∧
  u_username <$> users (persisted (updateUser (Some 3) "admin1" "op1@roadside.com"
                                     "operator" "active") 50 session_db) =
  ["admin1"; "superadmin"; "admin1"].
Proof.
  split; [reflexivity|].
  exact (proj1 (proj2 (proj2 (usernames_stored_unchecked session_db 50 "admin1"
                                "op1@roadside.com" "operator" "active"))
                  (Some 3) 2%nat eq_refl)).
Defined.

(** C6 as stated fails: a user created with the username and the email of a
    seed user is stored next to it. *)
Lemma createUser_duplicate_username :
  let db' := persisted (createUser "admin1" "admin1@roadside.com" "operator" "active") 5
               (initialData 0) in
  reachable db' ∧
  u_username <$> users db' = ["admin1"; "superadmin"; "operator1"; "admin1"] ∧
  ¬ NoDup (u_username <$> users db') ∧
  ¬ NoDup (u_email <$> users db').
Proof.
  split_and!.
  - apply (reachable_step _ 5 (CreateUser _ _ _ _)), reachable_init.
  - reflexivity.
  - by apply (bool_decide_unpack _).
  - by apply (bool_decide_unpack _).
Qed.

(** ** Failed operations *)

(** C9. An operation that answers NotFound leaves the file as it was: the
    assignments that [deleteRequest], [deleteContact] and [deleteUser] filter
    out of their local copy before they look for the entity are not written. *)
Theorem not_found_writes_nothing o now db :
  response (handle o) now db = NotFound → persisted (handle o) now db = db.
Proof.
  destruct o; run;
    repeat match goal with
    | |- context [findIndex ?p ?l] => destruct (findIndex p l); simpl
    end; done.
Qed.

Lemma not_found_writes_nothing_witness :
  assignments_for (Some 7) dangling_db = 1%nat ∧
  response (handle (DeleteRequest (Some 7))) 60 dangling_db = NotFound ∧
  persisted (handle (DeleteRequest (Some 7))) 60 dangling_db = dangling_db.
Proof.
  split; [reflexivity|]. split; [reflexivity|].
  apply (not_found_writes_nothing (DeleteRequest (Some 7)) 60 dangling_db).
  reflexivity.
Defined.

(** ** Status updates *)

Lemma alter_insert {A} (g : A → A) i (l : list A) x :
  l !! i = Some x → alter g i l = <[i:=g x]> l.
Proof.
  intros Hx. rewrite list_insert_alter.
  apply list_alter_ext; [|done]. intros y Hy. congruence.
Qed.

(** C8. [updateRequestStatus] answers NotFound exactly when no request has
    the id, and then writes nothing.  When a request has it, the first such
    request gets the given status, whatever text it is, and the reading of
    the clock as [updatedAt]; its other fields, the other requests and the
    other collections are kept. *)
Theorem updateRequestStatus_spec db id status now :
  (response (updateRequestStatus id status) now db = NotFound ↔
   ∀ r, r ∈ requests db → Some (r_id r) === id = false) ∧
  (response (updateRequestStatus id status) now db = NotFound →
   persisted (updateRequestStatus id status) now db = db) ∧
  (∀ q, find (λ r, Some (r_id r) === id) (requests db) = Some q →
   ∃ i, requests db !! i = Some q ∧
        response (updateRequestStatus id status) now db = OK ∧
        persisted (updateRequestStatus id status) now db =
        set_requests
          (<[i:=Request (r_id q) (r_userInfo q) (r_imageUrl q) status (r_createdAt q) now]>
             (requests db)) db).
Proof.
  split_and!.
  - rewrite <- findIndex_None. run.
    destruct (findIndex _ (requests db)); simpl; split; done.
  - run. by destruct (findIndex _ (requests db)).
  - intros q (i & Hi & Hq)%find_findIndex. exists i. run. rewrite Hi. simpl.
    split_and!; [done|done|]. by rewrite (alter_insert _ _ _ q).
Qed.

Lemma updateRequestStatus_spec_witness :
  find (λ r, Some (r_id r) === Some 1) (requests session_db) =
    Some (Request 1 "Jane, Toyota, Rabat" None "In Progress" 20 40) ∧
  requests (persisted (updateRequestStatus (Some 1) "Towed away") 50 session_db) =
    [Request 1 "Jane, Toyota, Rabat" None "Towed away" 20 50] ∧
  response (updateRequestStatus (Some 999) "Completed") 50 session_db = NotFound.
Proof.
  split; [reflexivity|].
  destruct (proj2 (proj2 (updateRequestStatus_spec session_db (Some 1) "Towed away" 50))
              (Request 1 "Jane, Toyota, Rabat" None "In Progress" 20 40) eq_refl)
    as (i & Hi & _ & Hp).
  split.
  - rewrite Hp. destruct i as [|i]; [reflexivity|]. simpl in Hi.
    destruct i; discriminate Hi.
  - apply (proj1 (updateRequestStatus_spec session_db (Some 999) "Completed" 50)).
    intros r Hr%list_elem_of_singleton. by subst r.
Defined.

(** ** Reassignment *)


Lemma upsert_existing db requestId contactId userId status now i :
  findIndex (λ a, a_requestId a === requestId) (assignments db) = Some i →
  upsertAssignment requestId contactId userId status now db =
  (OK, Database
         (match findIndex (λ r, Some (r_id r) === requestId) (requests db) with
          | Some j =>
              alter (λ r, Request (r_id r) (r_userInfo r) (r_imageUrl r) "In Progress"
                            (r_createdAt r) now) j (requests db)
          | None => requests db
          end)
         (contacts db) (users db) (admins db)
         (alter (λ a, Assignment (a_id a) (a_requestId a) contactId userId status
                        (a_createdAt a)) i (assignments db))).
Proof.
  intros Hi. run. rewrite Hi. simpl. by destruct (findIndex _ (requests db)).
Qed.




(** ** One assignment per request id *)

Lemma stored_for_assignments_for (r : Z) db :
  stored_for (Some r) db = assignments_for (Some r) db.
Proof.
  unfold stored_for, assignments_for. f_equal. apply list_filter_iff. intros a.
  rewrite Is_true_true, strict_eq_true. split.
  - intros ->. by exists r.
  - by intros (n & -> & [= ->]).
Qed.

(** C1 (amended). In every file that the server can hold, the assignments
    stored with a request id that is an integer number 0 or 1, for every
    integer; and [upsertAssignment] on an integer request id that has an
    assignment replaces that assignment where it stands, with the contact,
    user and status of the call and the id and [createdAt] it had, and leaves
    every other assignment as it is.  A request id that [parseInt] cannot
    read finds no assignment: the call appends one, stored with a null
    [requestId]. *)
Theorem at_most_one_assignment db :
  reachable db →
  (∀ r : Z, (stored_for (Some r) db ≤ 1)%nat) ∧
  (∀ (r : Z) contactId userId status now a,
     a ∈ assignments db → a_requestId a = Some r →
     ∃ i, assignments db !! i = Some a ∧
          assignments (persisted (upsertAssignment (Some r) contactId userId status) now db) =
          <[i:=Assignment (a_id a) (Some r) contactId userId status (a_createdAt a)]>
            (assignments db)) ∧
  (∀ contactId userId status now,
     assignments (persisted (upsertAssignment None contactId userId status) now db) =
     assignments db ++
       [Assignment (next_of (a_id <$> assignments db)) None contactId userId status now]).
Proof.
  intros Hdb. split_and!.
  - intros r. rewrite stored_for_assignments_for. by apply reachable_single.
  - intros r contactId userId status now a Ha Hr.
    assert (a_requestId a === Some r = true) as Hp
      by (apply strict_eq_true; by exists r).
    destruct (findIndex_is_Some (λ a, a_requestId a === Some r) _ a Ha Hp) as [i Hi].
    assert (assignments db !! i = Some a) as Hia.
    { apply findIndex_Some in Hi as (x & Hx & Hpx & _).
      rewrite Hx. f_equal.
      apply (filter_le_1_unique (λ a, a_requestId a === Some r) (assignments db));
        [apply (reachable_single db Hdb)|by eapply list_elem_of_lookup_2|done..]. }
    exists i. split; [done|].
    unfold persisted. rewrite (upsert_existing db _ _ _ _ _ i Hi). simpl.
    by rewrite (alter_insert _ _ _ a), Hr.
  - intros. apply upsert_unparsed_requestId.
Qed.

Lemma at_most_one_assignment_witness :
  reachable session_db ∧
  Assignment 1 (Some 1) (Some 2) (Some 3) "completed" 30 ∈ assignments session_db ∧
  stored_for (Some 1) session_db = 1%nat ∧
  assignments
    (persisted (upsertAssignment (Some 1) (Some 3) (Some 2) "assigned") 50 session_db) =
  [Assignment 1 (Some 1) (Some 3) (Some 2) "assigned" 30].
Proof.
  assert (reachable session_db) as Hs by apply reachable_replay, reachable_init.
  assert (Assignment 1 (Some 1) (Some 2) (Some 3) "completed" 30 ∈ assignments session_db)
    as Hin by left.
  split; [exact Hs|]. split; [exact Hin|]. split; [reflexivity|].
  destruct (proj1 (proj2 (at_most_one_assignment session_db Hs))
              1 (Some 3) (Some 2) "assigned" 50 _ Hin eq_refl) as (i & Hi & ->).
  destruct i as [|i]; [reflexivity|discriminate Hi].
Defined.

(** C1 as stated fails for the request id that [parseInt] cannot read: the
    same call, sent twice, leaves two assignments with the same stored
    [requestId], null. *)
Lemma null_requestId_stored_twice :
  reachable two_null ∧
  a_requestId <$> assignments two_null = [None; None] ∧
  stored_for None two_null = 2%nat.
Proof.
  split_and!; [apply reachable_replay, reachable_init|reflexivity|reflexivity].
Qed.

(** ** The cleaning script *)

Lemma filter_seen_keys seen reqs :
  NoDup (key <$> filter_seen seen reqs) ∧
  ∀ k, k ∈ key <$> filter_seen seen reqs → k ∉ seen.
Proof.
  revert seen. induction reqs as [|req rest IH]; intros seen; simpl.
  - split; [apply NoDup_nil_2|]. by intros k ?%not_elem_of_nil.
  - destruct (decide (key req ∈ seen)) as [Hin|Hout]; [apply IH|].
    destruct (IH ({[key req]} ∪ seen)) as [Hnd Hfresh]. simpl. split.
    + apply NoDup_cons. split; [|done].
      intros Hk%Hfresh. apply Hk, elem_of_union_l, elem_of_singleton. done.
    + intros k [->|Hk%Hfresh]%elem_of_cons; [done|].
      intros Hs. apply Hk, elem_of_union_r, Hs.
Qed.

Lemma map_nextId_ids nextId reqs :
  r_id <$> map_nextId nextId reqs = seqZ nextId (Z.of_nat (length reqs)).
Proof.
  revert nextId. induction reqs as [|req rest IH]; intros nextId; [done|].
  cbn [map_nextId fmap list_fmap length r_id]. rewrite IH.
  rewrite Nat2Z.inj_succ, (seqZ_cons nextId) by lia.
  do 2 f_equal; lia.
Qed.

Lemma map_nextId_length nextId reqs : length (map_nextId nextId reqs) = length reqs.
Proof. revert nextId. induction reqs; intros; simpl; [done|]. by f_equal. Qed.

Lemma filter_seen_sublist seen reqs : filter_seen seen reqs `sublist_of` reqs.
Proof.
  revert seen. induction reqs as [|req rest IH]; intros seen; simpl; [done|].
  destruct (decide _); [apply sublist_cons|apply sublist_skip]; apply IH.
Qed.

(** What [cleanRequests] does to a survivor besides giving it an id: a null
    [imageUrl] becomes the placeholder, the other fields are kept. *)
Lemma map_nextId_fields nextId reqs :
  Forall2 (λ req req',
      r_userInfo req' = r_userInfo req ∧
      r_imageUrl req' = Some (default PLACEHOLDER (r_imageUrl req)) ∧
      r_status req' = r_status req ∧
      r_createdAt req' = r_createdAt req ∧
      r_updatedAt req' = r_updatedAt req)
    reqs (map_nextId nextId reqs).
Proof.
  revert nextId. induction reqs as [|req rest IH]; intros nextId; simpl.
  - apply Forall2_nil_2.
  - apply Forall2_cons; split; [|apply IH].
    simpl. by destruct (r_imageUrl req).
Qed.

(** The survivors of [cleanRequests] had pairwise distinct keys in the input,
    and they get the ids 1, 2, ... in their order. *)
Lemma cleanRequests_ids reqs :
  NoDup (key <$> filter_seen ∅ reqs) ∧
  r_id <$> cleanRequests reqs = seqZ 1 (Z.of_nat (length (cleanRequests reqs))).
Proof.
  split; [apply filter_seen_keys|].
  unfold cleanRequests. by rewrite map_nextId_ids, map_nextId_length.
Qed.

(** C10. On a request without a photo that follows a request of the same
    requester which already carries the placeholder, [cleanRequests] keeps
    both, since their keys differ, and then gives the second the placeholder
    too: the output holds two records with the same [userInfo] and
    [imageUrl].  A second run of the script removes one of them. *)
Theorem cleanRequests_keeps_duplicate :
  cleanRequests cleaned_then_new =
    [ Request 1 "Jane, Toyota, Rabat" (Some PLACEHOLDER) "Submitted" 20 20;
      Request 2 "Jane, Toyota, Rabat" (Some PLACEHOLDER) "Submitted" 50 50 ] ∧
  ¬ NoDup ((λ r, (r_userInfo r, r_imageUrl r)) <$> cleanRequests cleaned_then_new) ∧
  cleanRequests (cleanRequests cleaned_then_new) =
    [ Request 1 "Jane, Toyota, Rabat" (Some PLACEHOLDER) "Submitted" 20 20 ].
Proof.
  split_and!; [by vm_compute| |by vm_compute].
  by apply (bool_decide_unpack _).
Qed.

(** * Further properties of the handlers *)

(** ** Ids are positive *)

Lemma next_of_positive ids : Forall (λ id, 0 < id) ids → 0 < next_of ids.
Proof.
  intros Hpos. destruct (next_of_allocated ids) as [[_ ->]|(m & Hm & _ & ->)]; [lia|].
  rewrite Forall_forall in Hpos. specialize (Hpos m Hm). lia.
Qed.

Section positive.
Context {A : Type} `{Item A}.
Implicit Types (l : list A).

Lemma positive_ids_push x l :
  item_id x = next_of (item_id <$> l) → positive_ids l → positive_ids (push x l).
Proof.
  unfold positive_ids, push. intros Hx Hl. rewrite fmap_app. apply Forall_app.
  split; [done|]. apply Forall_singleton. rewrite Hx. by apply next_of_positive.
Qed.

Lemma positive_ids_alter (g : A → A) i l :
  (∀ x, item_id (g x) = item_id x) → positive_ids l → positive_ids (alter g i l).
Proof. unfold positive_ids. intros Hg. by rewrite fmap_alter_keep. Qed.

Lemma positive_ids_splice1 i l : positive_ids l → positive_ids (splice1 i l).
Proof.
  unfold positive_ids, splice1. rewrite list_fmap_delete. apply Forall_delete.
Qed.

Lemma positive_ids_filter (P : A → Prop) `{∀ x, Decision (P x)} l :
  positive_ids l → positive_ids (filter P l).
Proof.
  unfold positive_ids. rewrite !Forall_fmap, !Forall_forall.
  intros Hl x [_ Hx]%list_elem_of_filter. by apply Hl.
Qed.
End positive.

Lemma handle_positive o now db :
  all_positive_ids db → all_positive_ids (persisted (handle o) now db).
Proof.
  intros (Hr & Hc & Hu & Had & Ha). destruct o; run;
    repeat match goal with
    | |- context [findIndex ?p ?l] => destruct (findIndex p l); simpl
    end;
    unfold all_positive_ids; simpl; split_and!;
    auto using @positive_ids_push, @positive_ids_alter,
      @positive_ids_splice1, @positive_ids_filter.
Qed.

(** X1. In every file that the server can hold, every id of every collection
    is a positive number, and so is the id that [getNextId] gives next. *)
Theorem ids_positive db :
  reachable db →
  all_positive_ids db ∧
  0 < response (getNextId requests) 0 db ∧
  0 < response (getNextId contacts) 0 db ∧
  0 < response (getNextId users) 0 db ∧
  0 < response (getNextId admins) 0 db ∧
  0 < response (getNextId assignments) 0 db.
Proof.
  intros Hdb.
  assert (all_positive_ids db) as Hpos.
  { induction Hdb; [|by apply handle_positive].
    unfold all_positive_ids, positive_ids. simpl.
    split_and!; repeat (apply Forall_cons; split; [done|]); apply Forall_nil_2. }
  split; [done|]. destruct Hpos as (Hr & Hc & Hu & Had & Ha).
  split_and!; by apply next_of_positive.
Qed.

Lemma ids_positive_witness :
  reachable session_db ∧ 0 < response (getNextId contacts) 0 session_db.
Proof.
  assert (reachable session_db) as Hs by apply reachable_replay, reachable_init.
  split; [exact Hs|]. apply (ids_positive session_db Hs).
Defined.

(** ** Deletions *)

Section deletion.
Context {A : Type} `{Item A}.
Implicit Types (l : list A).

Lemma filter_all l (p : A → bool) :
  (∀ x, x ∈ l → p x = true) → filter (λ x, Is_true (p x)) l = l.
Proof.
  induction l as [|x l IH]; intros Hl; [done|].
  rewrite filter_cons, (Hl x) by left. simpl. f_equal.
  apply IH. intros y Hy. apply Hl. by right.
Qed.

(** With distinct ids, to remove the first item that has the id is to remove
    every item that has it. *)
Lemma splice1_filter l i (id : jsnum) :
  distinct_ids l →
  findIndex (λ x, Some (item_id x) === id) l = Some i →
  splice1 i l = filter (λ x, Is_true (negb (Some (item_id x) === id))) l.
Proof.
  unfold distinct_ids, splice1. revert i.
  induction l as [|x l IH]; intros i Hnd Hi; [done|].
  rewrite findIndex_cons in Hi. rewrite fmap_cons in Hnd.
  apply NoDup_cons in Hnd as [Hx Hnd]. rewrite filter_cons.
  destruct (Some (item_id x) === id) eqn:Ex; simpl.
  - injection Hi as <-. simpl. symmetry. apply filter_all.
    intros y Hy. destruct (Some (item_id y) === id) eqn:Ey; [|done].
    exfalso. apply Hx.
    apply strict_eq_true in Ex as (n & [= Hn] & ->).
    apply strict_eq_true in Ey as (m & [= Hm] & [= <-]).
    rewrite Hn, <- Hm. by apply list_elem_of_fmap_2.
  - destruct (findIndex _ l) as [j|] eqn:Ej; [|done].
    injection Hi as <-. simpl. f_equal. by apply IH.
Qed.

Lemma findIndex_filter_negb l (p : A → bool) :
  findIndex p (filter (λ x, Is_true (negb (p x))) l) = None.
Proof. apply findIndex_None. by intros x [_ Hx]%elem_of_filter_negb. Qed.

Lemma length_splice1 l i (p : A → bool) :
  findIndex p l = Some i → S (length (splice1 i l)) = length l.
Proof.
  intros Hi%findIndex_lt. unfold splice1. rewrite length_delete; [lia|].
  by apply lookup_lt_is_Some_2.
Qed.
End deletion.

(** X2. In a file that the server can hold, a deletion that succeeds removes
    exactly the entity with the id: what remains of the collection is every
    other entity, in order, one fewer than before, and a second deletion of
    the same id answers NotFound. *)
Theorem delete_removes_entity db id now now' :
  reachable db →
  (response (deleteRequest id) now db = OK →
   let db' := persisted (deleteRequest id) now db in
   requests db' = filter (λ r, Is_true (negb (Some (r_id r) === id))) (requests db) ∧
   S (length (requests db')) = length (requests db) ∧
   response (deleteRequest id) now' db' = NotFound) ∧
  (response (deleteContact id) now db = OK →
   let db' := persisted (deleteContact id) now db in
   contacts db' = filter (λ c, Is_true (negb (Some (c_id c) === id))) (contacts db) ∧
   S (length (contacts db')) = length (contacts db) ∧
   response (deleteContact id) now' db' = NotFound) ∧
  (response (deleteUser id) now db = OK →
   let db' := persisted (deleteUser id) now db in
   users db' = filter (λ u, Is_true (negb (Some (u_id u) === id))) (users db) ∧
   S (length (users db')) = length (users db) ∧
   response (deleteUser id) now' db' = NotFound) ∧
  (response (deleteAdmin id) now db = OK →
   let db' := persisted (deleteAdmin id) now db in
   admins db' = filter (λ a, Is_true (negb (Some (ad_id a) === id))) (admins db) ∧
   S (length (admins db')) = length (admins db) ∧
   response (deleteAdmin id) now' db' = NotFound).
Proof.
  intros (Hr & Hc & Hu & Had & _)%reachable_distinct.
  split_and!; run;
    match goal with
    | |- context [findIndex ?p ?l] => destruct (findIndex p l) as [i|] eqn:Ei; simpl
    end; try done; intros _;
    (split_and!; [by eapply splice1_filter|by eapply length_splice1|]).
  - rewrite (splice1_filter (requests db) i id Hr Ei).
    unfold item_id, request_item.
    by rewrite (findIndex_filter_negb (requests db) (λ r, Some (r_id r) === id)).
  - rewrite (splice1_filter (contacts db) i id Hc Ei).
    unfold item_id, contact_item.
    by rewrite (findIndex_filter_negb (contacts db) (λ c, Some (c_id c) === id)).
  - rewrite (splice1_filter (users db) i id Hu Ei).
    unfold item_id, user_item.
    by rewrite (findIndex_filter_negb (users db) (λ u, Some (u_id u) === id)).
  - rewrite (splice1_filter (admins db) i id Had Ei).
    unfold item_id, admin_item.
    by rewrite (findIndex_filter_negb (admins db) (λ a, Some (ad_id a) === id)).
Qed.

Lemma delete_removes_entity_witness :
  reachable session_db ∧
  response (deleteContact (Some 2)) 50 session_db = OK ∧
  c_id <$> contacts (persisted (deleteContact (Some 2)) 50 session_db) = [1; 3; 4] ∧
  response (deleteContact (Some 2)) 60 (persisted (deleteContact (Some 2)) 50 session_db)
    = NotFound.
Proof.
  assert (reachable session_db) as Hs by apply reachable_replay, reachable_init.
  split; [exact Hs|]. split; [reflexivity|]. split; [reflexivity|].
  apply (proj1 (proj2 (delete_removes_entity session_db (Some 2) 50 60 Hs)) eq_refl).
Defined.

(** ** An entity that is created and deleted again *)

Lemma findIndex_push_fresh {A} (p : A → bool) (l : list A) x :
  (∀ y, y ∈ l → p y = false) → p x = true →
  findIndex p (push x l) = Some (length l).
Proof.
  unfold push. induction l as [|y l IH]; intros Hl Hx; simpl.
  - by rewrite findIndex_cons, Hx.
  - rewrite findIndex_cons, (Hl y) by left.
    rewrite IH; [done| |done]. intros z Hz. apply Hl. by right.
Qed.

Lemma splice1_push {A} (l : list A) x : splice1 (length l) (push x l) = l.
Proof. unfold splice1, push. by rewrite delete_middle, app_nil_r. Qed.

Lemma findIndex_next_of {A} `{Item A} (l : list A) x :
  item_id x = next_of (item_id <$> l) →
  findIndex (λ y, Some (item_id y) === Some (item_id x)) (push x l) = Some (length l).
Proof.
  intros Hx. apply findIndex_push_fresh.
  - intros y Hy. destruct (Some (item_id y) === Some (item_id x)) eqn:E; [|done].
    apply strict_eq_true in E as (n & [= Hn] & [= Hm]).
    exfalso. apply (allocated_fresh (item_id x) (item_id <$> l)).
    + rewrite Hx. apply next_of_allocated.
    + rewrite Hm, <- Hn. by apply list_elem_of_fmap_2.
  - apply strict_eq_true. by eexists.
Qed.

(** X3. For every file, to delete the entity that was just created restores
    its collection: the deletion answers OK and leaves the file as it was
    before the creation, but for the assignments that referenced the new id
    (none of which [deleteAdmin] removes).  The next creation then gives the
    deleted id again. *)
Theorem create_then_delete db now now' now'' :
  (∀ userInfo imageUrl userInfo' imageUrl',
     let r := response (createRequest userInfo imageUrl) now db in
     let db1 := persisted (createRequest userInfo imageUrl) now db in
     let db2 := persisted (deleteRequest (Some (r_id r))) now' db1 in
     response (deleteRequest (Some (r_id r))) now' db1 = OK ∧
     db2 = set_assignments
             (filter (λ a, Is_true (negb (a_requestId a === Some (r_id r))))
                (assignments db)) db ∧
     r_id (response (createRequest userInfo' imageUrl') now'' db2) = r_id r) ∧
  (∀ name phone email role name' phone' email' role',
     let c := response (createContact name phone email role) now db in
     let db1 := persisted (createContact name phone email role) now db in
     let db2 := persisted (deleteContact (Some (c_id c))) now' db1 in
     response (deleteContact (Some (c_id c))) now' db1 = OK ∧
     db2 = set_assignments
             (filter (λ a, Is_true (negb (a_contactId a === Some (c_id c))))
                (assignments db)) db ∧
     c_id (response (createContact name' phone' email' role') now'' db2) = c_id c) ∧
  (∀ username email role status username' email' role' status',
     let u := response (createUser username email role status) now db in
     let db1 := persisted (createUser username email role status) now db in
     let db2 := persisted (deleteUser (Some (u_id u))) now' db1 in
     response (deleteUser (Some (u_id u))) now' db1 = OK ∧
     db2 = set_assignments
             (filter (λ a, Is_true (negb (a_userId a === Some (u_id u))))
                (assignments db)) db ∧
     u_id (response (createUser username' email' role' status') now'' db2) = u_id u) ∧
  (∀ name username email phone level status name' username' email' phone' level' status',
     let a := response (createAdmin name username email phone level status) now db in
     let db1 := persisted (createAdmin name username email phone level status) now db in
     let db2 := persisted (deleteAdmin (Some (ad_id a))) now' db1 in
     response (deleteAdmin (Some (ad_id a))) now' db1 = OK ∧
     db2 = db ∧
     ad_id (response (createAdmin name' username' email' phone' level' status') now'' db2)
       = ad_id a).
Proof.
  split_and!; intros;
    repeat match goal with x := _ |- _ => subst x end; run;
    match goal with
    | |- context [findIndex ?p (push ?x ?l)] =>
        replace (findIndex p (push x l)) with (Some (length l))
          by (symmetry; exact (findIndex_next_of l x eq_refl))
    end; simpl; rewrite splice1_push; try done.
  by destruct db.
Qed.

(** ** Updates of contacts, users and admins *)

(** X4. [updateContact], [updateUser] and [updateAdmin] answer NotFound
    exactly when no entity has the id, and then write nothing.  Otherwise the
    first entity with the id gets all the fields of the call in place of its
    own and keeps its id and [createdAt]; the rest of the file is kept. *)
Theorem update_replaces_fields db id now :
  (∀ name phone email role,
     (response (updateContact id name phone email role) now db = NotFound ↔
      ∀ c, c ∈ contacts db → Some (c_id c) === id = false) ∧
     (response (updateContact id name phone email role) now db = NotFound →
      persisted (updateContact id name phone email role) now db = db) ∧
     (∀ q, find (λ c, Some (c_id c) === id) (contacts db) = Some q →
      ∃ i, contacts db !! i = Some q ∧
           response (updateContact id name phone email role) now db = OK ∧
           persisted (updateContact id name phone email role) now db =
           set_contacts
             (<[i:=Contact (c_id q) name phone email role (c_createdAt q)]> (contacts db))
             db)) ∧
  (∀ username email role status,
     (response (updateUser id username email role status) now db = NotFound ↔
      ∀ u, u ∈ users db → Some (u_id u) === id = false) ∧
     (response (updateUser id username email role status) now db = NotFound →
      persisted (updateUser id username email role status) now db = db) ∧
     (∀ q, find (λ u, Some (u_id u) === id) (users db) = Some q →
      ∃ i, users db !! i = Some q ∧
           response (updateUser id username email role status) now db = OK ∧
           persisted (updateUser id username email role status) now db =
           set_users
             (<[i:=User (u_id q) username email role status (u_createdAt q)]> (users db))
             db)) ∧
  (∀ name username email phone level status,
     (response (updateAdmin id name username email phone level status) now db = NotFound ↔
      ∀ a, a ∈ admins db → Some (ad_id a) === id = false) ∧
     (response (updateAdmin id name username email phone level status) now db = NotFound →
      persisted (updateAdmin id name username email phone level status) now db = db) ∧
     (∀ q, find (λ a, Some (ad_id a) === id) (admins db) = Some q →
      ∃ i, admins db !! i = Some q ∧
           response (updateAdmin id name username email phone level status) now db = OK ∧
           persisted (updateAdmin id name username email phone level status) now db =
           set_admins
             (<[i:=Admin (ad_id q) name username email phone level status (ad_createdAt q)]>
                (admins db))
             db)).
Proof.
  split_and!; intros; split_and!.
  - rewrite <- findIndex_None. run.
    destruct (findIndex _ (contacts db)); simpl; split; done.
  - run. by destruct (findIndex _ (contacts db)).
  - intros q (i & Hi & Hq)%find_findIndex. exists i. run. rewrite Hi. simpl.
    split_and!; [done|done|]. by rewrite (alter_insert _ _ _ q).
  - rewrite <- findIndex_None. run.
    destruct (findIndex _ (users db)); simpl; split; done.
  - run. by destruct (findIndex _ (users db)).
  - intros q (i & Hi & Hq)%find_findIndex. exists i. run. rewrite Hi. simpl.
    split_and!; [done|done|]. by rewrite (alter_insert _ _ _ q).
  - rewrite <- findIndex_None. run.
    destruct (findIndex _ (admins db)); simpl; split; done.
  - run. by destruct (findIndex _ (admins db)).
  - intros q (i & Hi & Hq)%find_findIndex. exists i. run. rewrite Hi. simpl.
    split_and!; [done|done|]. by rewrite (alter_insert _ _ _ q).
Qed.

Lemma update_replaces_fields_witness :
  find (λ c, Some (c_id c) === Some 4) (contacts session_db) =
    Some (Contact 4 "Ahmed" "0612345678" "ahmed@x.com" "mechanic" 10) ∧
  find (λ c, Some (c_id c) === Some 4)
    (contacts (persisted (updateContact (Some 4) "Ahmed B" "0600000000" "" "towing") 50
                 session_db)) =
    Some (Contact 4 "Ahmed B" "0600000000" "" "towing" 10) ∧
  response (updateContact (Some 9) "Ahmed B" "0600000000" "" "towing") 50 session_db
    = NotFound.
Proof.
  split; [reflexivity|].
  destruct (proj2 (proj2 (proj1 (update_replaces_fields session_db (Some 4) 50)
                           "Ahmed B" "0600000000" "" "towing"))
              (Contact 4 "Ahmed" "0612345678" "ahmed@x.com" "mechanic" 10) eq_refl)
    as (i & Hi & _ & Hp).
  split.
  - rewrite Hp. do 4 (destruct i as [|i]; [try discriminate Hi; try reflexivity|]).
    discriminate Hi.
  - apply (proj1 (proj1 (update_replaces_fields session_db (Some 9) 50)
                    "Ahmed B" "0600000000" "" "towing")).
    apply Forall_forall. by apply (bool_decide_unpack _).
Defined.

(** ** What a route leaves alone *)

(** X5. A route writes its own collection only, with two exceptions: the
    deletion of a request, contact or user also removes assignments, and
    [upsertAssignment] also sets the status and [updatedAt] of requests.
    [upsertAssignment] neither adds nor removes a request, no other route
    adds or alters an assignment, and the admin routes never touch the
    assignments. *)
Theorem routes_keep_other_collections o now db :
  let db' := persisted (handle o) now db in
  (request_route o = false → is_upsert o = false → requests db' = requests db) ∧
  (is_upsert o = true →
   (λ r, (r_id r, r_userInfo r, r_imageUrl r, r_createdAt r)) <$> requests db' =
   (λ r, (r_id r, r_userInfo r, r_imageUrl r, r_createdAt r)) <$> requests db) ∧
  (contact_route o = false → contacts db' = contacts db) ∧
  (user_route o = false → users db' = users db) ∧
  (admin_route o = false → admins db' = admins db) ∧
  (is_upsert o = false → assignments db' `sublist_of` assignments db) ∧
  (is_upsert o = false → is_delete o = false → assignments db' = assignments db) ∧
  (admin_route o = true → assignments db' = assignments db).
Proof.
  destruct o; run;
    repeat match goal with
    | |- context [findIndex ?p ?l] => destruct (findIndex p l); simpl
    end;
    split_and!; intros; try done; try (by apply sublist_filter);
    by apply (fmap_alter_keep (λ r, (r_id r, r_userInfo r, r_imageUrl r, r_createdAt r))).
Qed.

Lemma routes_keep_other_collections_witness :
  request_route (DeleteContact (Some 2)) = false ∧
  is_upsert (DeleteContact (Some 2)) = false ∧
  assignments (persisted (handle (DeleteContact (Some 2))) 50 session_db) = [] ∧
  requests (persisted (handle (DeleteContact (Some 2))) 50 session_db) =
    [Request 1 "Jane, Toyota, Rabat" None "In Progress" 20 40].
Proof.
  split; [reflexivity|]. split; [reflexivity|]. split; [reflexivity|].
  rewrite (proj1 (routes_keep_other_collections (DeleteContact (Some 2)) 50 session_db)
             eq_refl eq_refl).
  reflexivity.
Defined.

(** ** The read routes *)

Section sorting.
Context {A : Type}.
Implicit Types (cmp : A → A → Z) (key : A → Z) (l : list A).

Lemma sort_insert_perm cmp x l : sort_insert cmp x l ≡ₚ x :: l.
Proof.
  induction l as [|y l IH]; simpl; [done|].
  destruct (decide _); [|done]. rewrite IH. apply Permutation_swap.
Qed.

Lemma sort_perm cmp l : sort cmp l ≡ₚ l.
Proof.
  unfold sort.
  assert (∀ acc, foldl (λ sorted x, sort_insert cmp x sorted) acc l ≡ₚ acc ++ l) as H.
  { induction l as [|x l IH]; intros acc; simpl; [by rewrite app_nil_r|].
    rewrite IH, sort_insert_perm. simpl. apply Permutation_middle. }
  apply (H []).
Qed.

Lemma elem_of_sort cmp l x : x ∈ sort cmp l ↔ x ∈ l.
Proof. by rewrite sort_perm. Qed.

(** With [(a, b) => key(b) - key(a)] the greatest key comes first. *)
Lemma sort_insert_sorted key x l :
  StronglySorted (λ a b, key b ≤ key a) l →
  StronglySorted (λ a b, key b ≤ key a) (sort_insert (λ a b, key b - key a) x l).
Proof.
  induction 1 as [|y l Hl IH Hy]; simpl.
  - by repeat constructor.
  - destruct (decide _) as [Hle|Hgt].
    + constructor; [done|].
      apply Forall_forall. intros z Hz. rewrite sort_insert_perm in Hz.
      apply elem_of_cons in Hz as [->|Hz]; [lia|].
      rewrite Forall_forall in Hy. by apply Hy.
    + constructor; [by constructor|].
      constructor; [lia|]. eapply Forall_impl; [exact Hy|]. simpl. lia.
Qed.

Lemma sort_sorted key l :
  StronglySorted (λ a b, key b ≤ key a) (sort (λ a b, key b - key a) l).
Proof.
  unfold sort.
  assert (∀ acc, StronglySorted (λ a b, key b ≤ key a) acc →
    StronglySorted (λ a b, key b ≤ key a)
      (foldl (λ sorted x, sort_insert (λ a b, key b - key a) x sorted) acc l)) as H.
  { induction l as [|x l IH]; intros acc Hacc; simpl; [done|].
    by apply IH, sort_insert_sorted. }
  apply H. constructor.
Qed.

(** The sort is stable: an array that is in order already is returned as it
    is, also where keys are equal. *)
Lemma sort_insert_last key x l :
  Forall (λ y, key x ≤ key y) l → sort_insert (λ a b, key b - key a) x l = l ++ [x].
Proof.
  induction 1 as [|y l Hy Hl IH]; simpl; [done|].
  rewrite decide_True by lia. by rewrite IH.
Qed.

Lemma sort_sorted_id key l :
  StronglySorted (λ a b, key b ≤ key a) l → sort (λ a b, key b - key a) l = l.
Proof.
  unfold sort. intros Hl.
  assert (∀ acc, StronglySorted (λ a b, key b ≤ key a) (acc ++ l) →
    foldl (λ sorted x, sort_insert (λ a b, key b - key a) x sorted) acc l = acc ++ l) as H.
  { clear Hl. induction l as [|x l IH]; intros acc Hacc; simpl; [by rewrite app_nil_r|].
    rewrite sort_insert_last.
    - rewrite IH; [by rewrite <- app_assoc|]. by rewrite <- app_assoc.
    - apply StronglySorted_app in Hacc as (Hacc & _ & _).
      apply Forall_forall. intros y Hy. apply Hacc; [done|left]. }
  by apply (H []).
Qed.
End sorting.

Ltac run_view :=
  unfold response, persisted, listRequests, listAssignments, readDatabase,
    mbind, M_bind, mret, M_ret;
  simpl.

Lemma find_None {A} (p : A → bool) (l : list A) :
  find p l = None ↔ ∀ x, x ∈ l → p x = false.
Proof. by rewrite find_None_findIndex, findIndex_None. Qed.

Lemma find_Some_elem {A} (p : A → bool) (l : list A) x :
  find p l = Some x → x ∈ l ∧ p x = true.
Proof.
  intros (i & (y & Hy & Hp & _)%findIndex_Some & Hx)%find_findIndex.
  assert (y = x) as -> by congruence.
  split; [by eapply list_elem_of_lookup_2|done].
Qed.

Lemma elem_of_listRequests db now row :
  row ∈ response listRequests now db ↔ ∃ req, req ∈ requests db ∧ row = request_row db req.
Proof.
  run_view. rewrite elem_of_sort, list_elem_of_fmap.
  split; intros (x & ? & ?); by exists x.
Qed.

Lemma elem_of_listAssignments db now row :
  row ∈ response listAssignments now db ↔
  ∃ a, a ∈ assignments db ∧ row = assignment_row db a.
Proof.
  run_view. rewrite elem_of_sort, list_elem_of_fmap.
  split; intros (x & ? & ?); by exists x.
Qed.

(** X6. [GET /api/requests] answers with one row per request of the file, the
    newest first, and writes nothing.  Requests that are in that order in the
    file already, or that all have the same [createdAt], keep their order.  A
    request without assignment has null for the contact and the user. *)
Theorem listRequests_rows db now :
  let rows := response listRequests now db in
  rv_req <$> rows ≡ₚ requests db ∧
  StronglySorted (λ a b, r_createdAt (rv_req b) ≤ r_createdAt (rv_req a)) rows ∧
  (StronglySorted (λ a b, r_createdAt b ≤ r_createdAt a) (requests db) →
   rv_req <$> rows = requests db) ∧
  (∀ row, row ∈ rows → assignments_for (Some (r_id (rv_req row))) db = 0%nat →
   rv_contactName row = None ∧ rv_contactRole row = None ∧ rv_userName row = None) ∧
  persisted listRequests now db = db.
Proof.
  split_and!.
  - run_view. rewrite sort_perm, <- list_fmap_compose.
    by rewrite (list_fmap_ext (rv_req ∘ request_row db) id (requests db)), list_fmap_id.
  - run_view. apply (sort_sorted (λ row, r_createdAt (rv_req row))).
  - intros Hs. run_view.
    rewrite (sort_sorted_id (λ row, r_createdAt (rv_req row))).
    + rewrite <- list_fmap_compose.
      by rewrite (list_fmap_ext (rv_req ∘ request_row db) id (requests db)), list_fmap_id.
    + eapply StronglySorted_fmap; [|exact Hs]. by intros x y.
  - intros row (req & Hreq & ->)%elem_of_listRequests Hz. simpl in Hz.
    apply assignments_for_0, find_None_findIndex in Hz.
    unfold request_row. by rewrite Hz.
  - done.
Qed.

Lemma listRequests_rows_witness :
  assignments_for
    (Some 2) (persisted (createRequest "Omar, Dacia, Fes" None) 50 session_db) = 0%nat ∧
  response listRequests 60 (persisted (createRequest "Omar, Dacia, Fes" None) 50 session_db) =
    [ RequestView (Request 2 "Omar, Dacia, Fes" None "Submitted" 50 50) None None None;
      RequestView (Request 1 "Jane, Toyota, Rabat" None "In Progress" 20 40)
        (Some "Fatima Towing") (Some "towing") (Some "operator1") ] ∧
  rv_contactName
    (RequestView (Request 2 "Omar, Dacia, Fes" None "Submitted" 50 50) None None None) = None.
Proof.
  split; [reflexivity|]. split; [reflexivity|].
  apply (proj1 (proj2 (proj2 (proj2
           (listRequests_rows
              (persisted (createRequest "Omar, Dacia, Fes" None) 50 session_db) 60)))));
    [left|reflexivity].
Defined.

Lemma upsert_find_assignment db rid contactId userId status now :
  ∃ a, find (λ a, a_requestId a === Some rid)
         (assignments (persisted (upsertAssignment (Some rid) contactId userId status) now db))
       = Some a ∧
       a_contactId a = contactId ∧ a_userId a = userId ∧ a_status a = status.
Proof.
  run.
  destruct (findIndex (λ a, a_requestId a === Some rid) (assignments db)) as [i|] eqn:Ei;
    simpl.
  - pose proof Ei as (x & Hx & _)%findIndex_Some.
    exists (Assignment (a_id x) (a_requestId x) contactId userId status (a_createdAt x)).
    split; [|done].
    destruct (findIndex _ (requests db)); simpl;
      by rewrite (find_alter_keep a_requestId (λ v, v === Some rid) _ i _ x).
  - exists (Assignment (next_of (a_id <$> assignments db)) (Some rid) contactId userId
              status now).
    split.
    + apply find_findIndex. exists (length (assignments db)). split.
      * destruct (findIndex _ (requests db)); simpl;
          (apply findIndex_push_fresh;
             [by apply findIndex_None|apply strict_eq_true; by eexists]).
      * destruct (findIndex _ (requests db)); simpl;
          unfold push; by rewrite list_lookup_middle.
    + done.
Qed.

Lemma upsert_request_status db rid contactId userId status now req :
  distinct_ids (requests db) →
  req ∈ requests (persisted (upsertAssignment (Some rid) contactId userId status) now db) →
  r_id req = rid →
  r_status req = "In Progress" ∧ r_updatedAt req = now.
Proof.
  intros Hnd Hreq Hid. revert Hreq. run.
  assert (∀ db0, requests
    (match findIndex (λ r, Some (r_id r) === Some rid) (requests db) with
     | Some requestIndex =>
         λ (now0 : timestamp) (file : database),
           (set_requests
              (alter (λ r, Request (r_id r) (r_userInfo r) (r_imageUrl r) "In Progress"
                             (r_createdAt r) now0) requestIndex (requests db)) db0, file)
     | None => λ _ file, (db0, file)
     end now db).1 =
    match findIndex (λ r, Some (r_id r) === Some rid) (requests db) with
    | Some j => alter (λ r, Request (r_id r) (r_userInfo r) (r_imageUrl r) "In Progress"
                              (r_createdAt r) now) j (requests db)
    | None => requests db0
    end) as Hreqs by (intros; by destruct (findIndex _ (requests db))).
  assert (req ∈ match findIndex (λ r, Some (r_id r) === Some rid) (requests db) with
                | Some j => alter (λ r, Request (r_id r) (r_userInfo r) (r_imageUrl r)
                                          "In Progress" (r_createdAt r) now) j (requests db)
                | None => requests db
                end →
          r_status req = "In Progress" ∧ r_updatedAt req = now) as Hmain.
  { destruct (findIndex _ (requests db)) as [j|] eqn:Ej.
    - intros (k & Hk)%list_elem_of_lookup_1.
      apply findIndex_Some in Ej as (x & Hx & Hp & _).
      apply strict_eq_true in Hp as (n & [= Hn] & [= <-]).
      destruct (decide (k = j)) as [->|Hne].
      + rewrite list_lookup_alter_eq, Hx in Hk. by injection Hk as <-.
      + rewrite list_lookup_alter_ne in Hk by done. exfalso. apply Hne.
        apply (NoDup_lookup (r_id <$> requests db) k j (r_id x) Hnd).
        * rewrite list_lookup_fmap, Hk. simpl. by rewrite Hid, Hn.
        * by rewrite list_lookup_fmap, Hx.
    - intros Hin. rewrite findIndex_None in Ej. specialize (Ej req Hin).
      rewrite Hid in Ej. unfold strict_eq in Ej. by rewrite bool_decide_eq_false in Ej. }
  destruct (findIndex _ (assignments db)); simpl.
  - intros Hin. apply Hmain. destruct (findIndex _ (requests db)); exact Hin.
  - intros Hin. apply Hmain. destruct (findIndex _ (requests db)); exact Hin.
Qed.

(** X7. In a file that the server can hold, after [upsertAssignment] with a
    contact and a user that exist, [GET /api/requests] shows the request with
    the name and role of that contact, the username of that user and the
    status In Progress. *)
Theorem listRequests_after_upsert db rid contactId userId status now now' con usr :
  reachable db →
  find (λ c, Some (c_id c) === contactId) (contacts db) = Some con →
  find (λ u, Some (u_id u) === userId) (users db) = Some usr →
  ∀ row,
    row ∈ response listRequests now'
            (persisted (upsertAssignment (Some rid) contactId userId status) now db) →
    r_id (rv_req row) = rid →
    rv_contactName row = Some (c_name con) ∧
    rv_contactRole row = Some (c_role con) ∧
    rv_userName row = Some (u_username usr) ∧
    r_status (rv_req row) = "In Progress".
Proof.
  intros Hdb Hcon Husr row (req & Hreq & ->)%elem_of_listRequests Hid. simpl in Hid.
  destruct (upsert_request_status db rid contactId userId status now req) as [Hst _];
    [by apply reachable_distinct|done|done|].
  destruct (upsert_find_assignment db rid contactId userId status now)
    as (a & Ha & Hc & Hu & _).
  set (db' := persisted (upsertAssignment (Some rid) contactId userId status) now db) in *.
  assert (contacts db' = contacts db ∧ users db' = users db) as [Ec Eu].
  { unfold db'. run.
    repeat match goal with
    | |- context [findIndex ?p ?l] => destruct (findIndex p l); simpl
    end; done. }
  unfold request_row. rewrite Hid, Ha. simpl.
  by rewrite Hc, Hu, Ec, Eu, Hcon, Husr.
Qed.

Lemma listRequests_after_upsert_witness :
  reachable session_db ∧
  r_id (Request 1 "Jane, Toyota, Rabat" None "In Progress" 20 50) = 1 ∧
  rv_contactName
    (request_row
       (persisted (upsertAssignment (Some 1) (Some 3) (Some 2) "assigned") 50 session_db)
       (Request 1 "Jane, Toyota, Rabat" None "In Progress" 20 50)) =
  Some "Karim Emergency".
Proof.
  assert (reachable session_db) as Hs by apply reachable_replay, reachable_init.
  split; [exact Hs|]. split; [reflexivity|].
  apply (listRequests_after_upsert session_db 1 (Some 3) (Some 2) "assigned" 50 60
           (Contact 3 "Karim Emergency" "0634567890" "karim@roadside.com" "emergency" 0)
           (User 2 "superadmin" "super@roadside.com" "super_admin" "active" 0)
           Hs eq_refl eq_refl); [|reflexivity].
  apply elem_of_listRequests. eexists. split; [|reflexivity]. left.
Defined.

Lemma find_assignment_after_cascade db (p : assignment → bool) a req :
  single_assignment db →
  a ∈ assignments db → p a = true → a_requestId a === Some (r_id req) = true →
  find (λ b, a_requestId b === Some (r_id req))
    (filter (λ b, Is_true (negb (p b))) (assignments db)) = None.
Proof.
  intros Hsingle Ha Hp Hr. apply find_None. intros b [Hb Hpb]%elem_of_filter_negb.
  destruct (a_requestId b === Some (r_id req)) eqn:Eb; [|done].
  assert (a = b) as ->; [|congruence].
  by apply (filter_le_1_unique (λ b, a_requestId b === Some (r_id req)) (assignments db));
    [apply Hsingle|..].
Qed.

(** X8. In a file that the server can hold, after the deletion of the contact
    or of the user of an assignment, [GET /api/requests] shows the request of
    that assignment as it was stored, status included, with null for the
    contact and for the user alike. *)
Theorem listRequests_after_cascade db id now now' a :
  reachable db →
  a ∈ assignments db →
  (response (deleteContact id) now db = OK → a_contactId a === id = true →
   ∀ row, row ∈ response listRequests now' (persisted (deleteContact id) now db) →
     a_requestId a === Some (r_id (rv_req row)) = true →
     rv_req row ∈ requests db ∧
     rv_contactName row = None ∧ rv_contactRole row = None ∧ rv_userName row = None) ∧
  (response (deleteUser id) now db = OK → a_userId a === id = true →
   ∀ row, row ∈ response listRequests now' (persisted (deleteUser id) now db) →
     a_requestId a === Some (r_id (rv_req row)) = true →
     rv_req row ∈ requests db ∧
     rv_contactName row = None ∧ rv_contactRole row = None ∧ rv_userName row = None).
Proof.
  intros Hdb%reachable_single Ha. split.
  - intros Hok Hp row (req & Hreq & ->)%elem_of_listRequests Hr. simpl in Hr.
    revert Hok Hreq. unfold request_row. run.
    destruct (findIndex _ (contacts db)); simpl; [intros _ Hreq|done].
    by rewrite (find_assignment_after_cascade db (λ b, a_contactId b === id) a req).
  - intros Hok Hp row (req & Hreq & ->)%elem_of_listRequests Hr. simpl in Hr.
    revert Hok Hreq. unfold request_row. run.
    destruct (findIndex _ (users db)); simpl; [intros _ Hreq|done].
    by rewrite (find_assignment_after_cascade db (λ b, a_userId b === id) a req).
Qed.

Lemma listRequests_after_cascade_witness :
  reachable session_db ∧
  response (deleteUser (Some 3)) 50 session_db = OK ∧
  response listRequests 60 (persisted (deleteUser (Some 3)) 50 session_db) =
    [ RequestView (Request 1 "Jane, Toyota, Rabat" None "In Progress" 20 40)
        None None None ] ∧
  Request 1 "Jane, Toyota, Rabat" None "In Progress" 20 40 ∈ requests session_db.
Proof.
  assert (reachable session_db) as Hs by apply reachable_replay, reachable_init.
  split; [exact Hs|]. split; [reflexivity|]. split; [reflexivity|].
  apply (proj2 (listRequests_after_cascade session_db (Some 3) 50 60
                  (Assignment 1 (Some 1) (Some 2) (Some 3) "completed" 30) Hs
                  ltac:(left)) eq_refl eq_refl
           (RequestView (Request 1 "Jane, Toyota, Rabat" None "In Progress" 20 40)
              None None None)); [left|reflexivity].
Defined.

(** X9. [GET /api/assignments] answers with one row per assignment of the
    file, the newest first, and writes nothing.  A reference that no entity
    answers is no error: the fields of the request, of the contact or of the
    user are null in the row exactly when no request, contact or user has
    the id that the assignment names. *)
Theorem listAssignments_rows db now :
  let rows := response listAssignments now db in
  av_assignment <$> rows ≡ₚ assignments db ∧
  StronglySorted
    (λ a b, a_createdAt (av_assignment b) ≤ a_createdAt (av_assignment a)) rows ∧
  (∀ row, row ∈ rows →
     (av_userInfo row = None ↔
      ∀ r, r ∈ requests db → Some (r_id r) === a_requestId (av_assignment row) = false) ∧
     (av_requestStatus row = None ↔
      ∀ r, r ∈ requests db → Some (r_id r) === a_requestId (av_assignment row) = false) ∧
     (av_contactName row = None ↔
      ∀ c, c ∈ contacts db → Some (c_id c) === a_contactId (av_assignment row) = false) ∧
     (av_userName row = None ↔
      ∀ u, u ∈ users db → Some (u_id u) === a_userId (av_assignment row) = false)) ∧
  persisted listAssignments now db = db.
Proof.
  split_and!.
  - run_view. rewrite sort_perm, <- list_fmap_compose.
    by rewrite (list_fmap_ext (av_assignment ∘ assignment_row db) id (assignments db)),
      list_fmap_id.
  - run_view. apply (sort_sorted (λ row, a_createdAt (av_assignment row))).
  - intros row (a & Ha & ->)%elem_of_listAssignments. simpl.
    by rewrite !fmap_None, !find_None.
  - done.
Qed.

(** X10. After a deletion of a request, contact or user that succeeds, no row
    of [GET /api/assignments] names the deleted id, and every row is an
    assignment that the file held before. *)
Theorem listAssignments_after_delete db id now now' :
  (response (deleteRequest id) now db = OK →
   ∀ row, row ∈ response listAssignments now' (persisted (deleteRequest id) now db) →
     a_requestId (av_assignment row) === id = false ∧ av_assignment row ∈ assignments db) ∧
  (response (deleteContact id) now db = OK →
   ∀ row, row ∈ response listAssignments now' (persisted (deleteContact id) now db) →
     a_contactId (av_assignment row) === id = false ∧ av_assignment row ∈ assignments db) ∧
  (response (deleteUser id) now db = OK →
   ∀ row, row ∈ response listAssignments now' (persisted (deleteUser id) now db) →
     a_userId (av_assignment row) === id = false ∧ av_assignment row ∈ assignments db).
Proof.
  split_and!; intros Hok row (a & Ha & ->)%elem_of_listAssignments; simpl;
    revert Hok Ha; run;
    match goal with
    | |- context [findIndex ?p ?l] => destruct (findIndex p l); simpl
    end; try done; intros _.
  - by intros [? ?]%(elem_of_filter_negb (λ a, a_requestId a === id)).
  - by intros [? ?]%(elem_of_filter_negb (λ a, a_contactId a === id)).
  - by intros [? ?]%(elem_of_filter_negb (λ a, a_userId a === id)).
Qed.

Lemma listAssignments_after_delete_witness :
  response (deleteContact (Some 2)) 55 dangling_db = OK ∧
  length (response listAssignments 56 dangling_db) = 2%nat ∧
  response listAssignments 60 (persisted (deleteContact (Some 2)) 55 dangling_db) =
    [ AssignmentView (Assignment 2 (Some 7) (Some 1) (Some 1) "assigned" 50)
        None None None (Some "Ahmed Mechanic") (Some "mechanic") (Some "admin1") ] ∧
  a_contactId (Assignment 2 (Some 7) (Some 1) (Some 1) "assigned" 50) === Some 2 = false.
Proof.
  split; [reflexivity|]. split; [reflexivity|]. split; [reflexivity|].
  apply (proj1 (proj2 (listAssignments_after_delete dangling_db (Some 2) 55 60))
           eq_refl
           (AssignmentView (Assignment 2 (Some 7) (Some 1) (Some 1) "assigned" 50)
              None None None (Some "Ahmed Mechanic") (Some "mechanic") (Some "admin1"))).
  left.
Defined.



(** * Further properties of the cleaning script *)

Lemma filter_seen_snoc seen reqs req :
  filter_seen seen (reqs ++ [req]) =
  filter_seen seen reqs ++
    if decide (key req ∈ seen ∪ list_to_set (key <$> reqs)) then [] else [req].
Proof.
  revert seen. induction reqs as [|r reqs IH]; intros seen; simpl.
  - apply decide_ext. rewrite elem_of_union. split; [by left|].
    by intros [?|?%not_elem_of_empty].
  - destruct (decide (key r ∈ seen)) as [Hin|Hout]; rewrite IH; simpl.
    + f_equal. apply decide_ext. rewrite !elem_of_union, elem_of_singleton.
      split; [intros [?|?]; auto|intros [?|[->|?]]; auto].
    + do 2 f_equal. apply decide_ext. rewrite !elem_of_union, elem_of_singleton. tauto.
Qed.

Lemma map_nextId_app nextId reqs reqs' :
  map_nextId nextId (reqs ++ reqs') =
  map_nextId nextId reqs ++ map_nextId (nextId + Z.of_nat (length reqs)) reqs'.
Proof.
  revert nextId. induction reqs as [|r reqs IH]; intros nextId.
  - simpl. by rewrite Z.add_0_r.
  - cbn [app map_nextId length]. rewrite IH. do 3 f_equal. lia.
Qed.

Lemma filter_seen_length seen reqs : (length (filter_seen seen reqs) ≤ length reqs)%nat.
Proof. apply sublist_length, filter_seen_sublist. Qed.

(** X11. For every array of requests, [cleanRequests] gives records with the
    ids 1, 2, ..., n in this order, hence pairwise distinct, none with a null
    [imageUrl], and not more than it was given; the result is empty only for
    the empty array. *)
Theorem cleanRequests_output reqs :
  let out := cleanRequests reqs in
  r_id <$> out = seqZ 1 (Z.of_nat (length out)) ∧
  NoDup (r_id <$> out) ∧
  (∀ r, r ∈ out → r_imageUrl r ≠ None) ∧
  (length out ≤ length reqs)%nat ∧
  (out = [] ↔ reqs = []).
Proof.
  assert (r_id <$> cleanRequests reqs =
          seqZ 1 (Z.of_nat (length (cleanRequests reqs)))) as Hids
    by apply cleanRequests_ids.
  split_and!; [done| | | |].
  - rewrite Hids. apply NoDup_seqZ.
  - unfold cleanRequests. intros r (i & Hi)%list_elem_of_lookup_1.
    pose proof (map_nextId_fields 1 (filter_seen ∅ reqs)) as Hf.
    destruct (Forall2_lookup_r _ _ _ _ _ Hf Hi) as (s & _ & _ & -> & _). done.
  - unfold cleanRequests. rewrite map_nextId_length. apply filter_seen_length.
  - unfold cleanRequests. split; [|by intros ->].
    destruct reqs as [|r reqs]; [done|]. simpl.
    rewrite decide_False by apply not_elem_of_empty. done.
Qed.

(** X12. [cleanRequests] keeps a record exactly when no record before it has
    the same key: a record appended to the array is dropped when its key is
    the key of a record of the array, and otherwise it is appended to the
    result with the next id, the placeholder for a null [imageUrl], and its
    other fields as they are. *)
Theorem cleanRequests_snoc reqs req :
  cleanRequests (reqs ++ [req]) =
  cleanRequests reqs ++
    if decide (key req ∈ key <$> reqs) then []
    else [ Request (Z.of_nat (length (cleanRequests reqs)) + 1) (r_userInfo req)
             (Some (default PLACEHOLDER (r_imageUrl req)))
             (r_status req) (r_createdAt req) (r_updatedAt req) ].
Proof.
  unfold cleanRequests. rewrite filter_seen_snoc, map_nextId_app, map_nextId_length.
  f_equal.
  rewrite (decide_ext _ (key req ∈ key <$> reqs)).
  - destruct (decide _); [done|]. simpl.
    rewrite Z.add_comm. by destruct (r_imageUrl req).
  - rewrite elem_of_union, elem_of_list_to_set.
    split; [by intros [?%not_elem_of_empty|?]|by right].
Qed.

Lemma filter_seen_fixed seen reqs :
  NoDup (key <$> reqs) → (∀ k, k ∈ key <$> reqs → k ∉ seen) →
  filter_seen seen reqs = reqs.
Proof.
  revert seen. induction reqs as [|r reqs IH]; intros seen Hnd Hfresh; [done|].
  rewrite fmap_cons in Hnd. apply NoDup_cons in Hnd as [Hr Hnd]. simpl.
  rewrite decide_False by (apply Hfresh; left). f_equal.
  apply IH; [done|]. intros k Hk [->%elem_of_singleton|Hs]%elem_of_union; [done|].
  apply (Hfresh k); [by right|done].
Qed.

Lemma map_nextId_key nextId reqs :
  Forall (λ r, r_imageUrl r ≠ None) reqs → key <$> map_nextId nextId reqs = key <$> reqs.
Proof.
  intros Hreqs. revert nextId.
  induction Hreqs as [|r reqs Hr _ IH]; intros nextId; [done|].
  cbn [map_nextId fmap list_fmap]. f_equal; [|apply IH].
  unfold key. simpl. by destruct (r_imageUrl r).
Qed.

Lemma map_nextId_idemp nextId reqs :
  map_nextId nextId (map_nextId nextId reqs) = map_nextId nextId reqs.
Proof.
  revert nextId. induction reqs as [|r reqs IH]; intros nextId; [done|].
  simpl. rewrite IH. by destruct (r_imageUrl r).
Qed.

(** X13. On an array that has no record with a null [imageUrl], a second run
    of [cleanRequests] changes nothing. *)
Theorem cleanRequests_idempotent reqs :
  Forall (λ r, r_imageUrl r ≠ None) reqs →
  cleanRequests (cleanRequests reqs) = cleanRequests reqs.
Proof.
  intros Hreqs. unfold cleanRequests.
  assert (Forall (λ r, r_imageUrl r ≠ None) (filter_seen ∅ reqs)) as Hs.
  { rewrite Forall_forall in Hreqs. apply Forall_forall. intros r Hr.
    apply Hreqs. eapply elem_of_sublist; [exact Hr|apply filter_seen_sublist]. }
  rewrite (filter_seen_fixed ∅ (map_nextId 1 (filter_seen ∅ reqs))).
  - apply map_nextId_idemp.
  - rewrite map_nextId_key by done. apply filter_seen_keys.
  - intros k _. apply not_elem_of_empty.
Qed.

Lemma cleanRequests_idempotent_witness :
  Forall (λ r, r_imageUrl r ≠ None) (cleanRequests cleaned_then_new) ∧
  cleanRequests (cleanRequests (cleanRequests cleaned_then_new)) =
  cleanRequests (cleanRequests cleaned_then_new).
Proof.
  assert (Forall (λ r, r_imageUrl r ≠ None) (cleanRequests cleaned_then_new)) as Hw
    by (repeat constructor; discriminate).
  split; [exact Hw|]. apply (cleanRequests_idempotent _ Hw).
Defined.

(** ** The script and the server *)

Lemma next_of_seqZ n : next_of (seqZ 1 (Z.of_nat n)) = Z.of_nat n + 1.
Proof.
  destruct (next_of_allocated (seqZ 1 (Z.of_nat n))) as [[Hnil ->]|(m & Hm & Hmax & ->)].
  - destruct n; [done|]. rewrite seqZ_cons in Hnil by lia. done.
  - apply elem_of_seqZ in Hm. f_equal. apply Z.le_antisymm; [lia|].
    apply Hmax, elem_of_seqZ. lia.
Qed.

(** X14. After [main] has cleaned a file, its requests have the ids 1 to n
    and the server gives the id n + 1 to the next request.  The script
    writes the other collections as it read them, and a file with pairwise
    distinct, positive ids and at most one assignment per request id is still
    such a file. *)
Theorem main_then_server db now :
  let db' := main db in
  r_id <$> requests db' = seqZ 1 (Z.of_nat (length (requests db'))) ∧
  (∀ userInfo imageUrl,
     r_id (response (createRequest userInfo imageUrl) now db') =
     Z.of_nat (length (requests db')) + 1) ∧
  (contacts db' = contacts db ∧ users db' = users db ∧ admins db' = admins db ∧
   assignments db' = assignments db) ∧
  (all_distinct_ids db → all_distinct_ids db') ∧
  (all_positive_ids db → all_positive_ids db') ∧
  (single_assignment db → single_assignment db').
Proof.
  assert (r_id <$> cleanRequests (requests db) =
          seqZ 1 (Z.of_nat (length (cleanRequests (requests db))))) as Hids
    by apply cleanRequests_ids.
  split; [|split; [|split; [|split; [|split]]]]; simpl.
  - done.
  - intros. run. unfold item_id, request_item. by rewrite Hids, next_of_seqZ.
  - done.
  - intros (_ & Hc & Hu & Had & Ha). split_and!; try done.
    unfold distinct_ids, item_id, request_item. simpl. rewrite Hids. apply NoDup_seqZ.
  - intros (_ & Hc & Hu & Had & Ha). split_and!; try done.
    unfold positive_ids, item_id, request_item. simpl. rewrite Hids.
    apply Forall_forall. intros x Hx%elem_of_seqZ. lia.
  - done.
Qed.

Lemma main_then_server_witness :
  all_distinct_ids session_db ∧ all_distinct_ids (main session_db).
Proof.
  assert (all_distinct_ids session_db) as Hd
    by apply reachable_distinct, reachable_replay, reachable_init.
  split; [exact Hd|].
  apply (proj1 (proj2 (proj2 (proj2 (main_then_server session_db 0)))) Hd).
Defined.
